(** * The assistant bot's address book (src/main.py)

    A shallow embedding of the contact manager: the validated fields, the
    contact record, the address book with its upcoming-birthdays query, the
    command handlers behind the [input_error] decorator, and persistence.

    Python values are modelled as follows.
    - [str] is [string]; the character predicates and case mappings below are
      those of the 7-bit ASCII range, where Python's Unicode tables agree with
      them. Characters above 127 are outside the model.
    - [int] is [Z]; [len] is [length] on lists.
    - [datetime] is a record of its seven integer fields, with the proleptic
      Gregorian arithmetic of the interpreter's [datetime] module.
    - A raised exception is the [Raise] outcome of the result type [res]; the
      handlers run in a state monad over the address book, since they mutate
      it in place.
    - The clock read [datetime.today()] is the argument [today]. *)

From Stdlib Require Import ZArith List String Ascii Bool Lia DecimalString.
Import ListNotations.
Open Scope string_scope.
Open Scope Z_scope.

(** ** Exceptions and results *)

Inductive exn : Type :=
| KeyError (key : string)
| ValueError (msg : string)
| IndexError (msg : string).

Inductive res (A : Type) : Type :=
| Ok (a : A)
| Raise (e : exn).
Arguments Ok {A} a.
Arguments Raise {A} e.

Definition res_bind {A B : Type} (r : res A) (k : A -> res B) : res B :=
  match r with
  | Ok a => k a
  | Raise e => Raise e
  end.

Declare Scope res_scope.
Delimit Scope res_scope with res.
Notation "x <- r ;; k" := (res_bind r (fun x => k))
  (at level 61, r at next level, right associativity) : res_scope.

(** What a decorated function hands back: a [str], the tuple of strings of
    [parse_input], or [None]. *)
Inductive pyval : Type :=
| PyStr (s : string)
| PyTuple (items : list string)
| PyNone.

(** ** Strings *)

Module Str.

Definition code (c : ascii) : N := N_of_ascii c.

Definition in_range (lo hi : N) (c : ascii) : bool :=
  ((lo <=? code c) && (code c <=? hi))%N.

Definition is_upper (c : ascii) : bool := in_range 65 90 c.
Definition is_lower (c : ascii) : bool := in_range 97 122 c.

(** [c.isalpha()] for one character: a letter. *)
Definition char_isalpha (c : ascii) : bool := is_upper c || is_lower c.

(** [c.isdigit()] for one character. *)
Definition char_isdigit (c : ascii) : bool := in_range 48 57 c.

(** [c.isspace()]: tab, line feed, vertical tab, form feed, carriage
    return, the four separators 28..31 and the space. *)
Definition char_isspace (c : ascii) : bool :=
  in_range 9 13 c || in_range 28 32 c.

(** A printable ASCII symbol: visible, and neither letter nor digit. *)
Definition char_issymbol (c : ascii) : bool :=
  in_range 33 47 c || in_range 58 64 c || in_range 91 96 c || in_range 123 126 c.

Definition char_lower (c : ascii) : ascii :=
  if is_upper c then ascii_of_N (code c + 32) else c.

Definition char_upper (c : ascii) : ascii :=
  if is_lower c then ascii_of_N (code c - 32) else c.

Fixpoint all (p : ascii -> bool) (s : string) : bool :=
  match s with
  | EmptyString => true
  | String c s' => p c && all p s'
  end.

Fixpoint any (p : ascii -> bool) (s : string) : bool :=
  match s with
  | EmptyString => false
  | String c s' => p c || any p s'
  end.

Fixpoint map (f : ascii -> ascii) (s : string) : string :=
  match s with
  | EmptyString => EmptyString
  | String c s' => String (f c) (map f s')
  end.

Definition nonempty (s : string) : bool :=
  match s with
  | EmptyString => false
  | String _ _ => true
  end.

(** [s.isalpha()]: at least one character, and every character a letter. *)
Definition isalpha (s : string) : bool := nonempty s && all char_isalpha s.

(** [s.isdigit()]: at least one character, and every character a digit. *)
Definition isdigit (s : string) : bool := nonempty s && all char_isdigit s.

(** [s.lower()]. *)
Definition lower (s : string) : string := map char_lower s.

(** [s.capitalize()]: the first character in upper case, the rest in lower. *)
Definition capitalize (s : string) : string :=
  match s with
  | EmptyString => EmptyString
  | String c s' => String (char_upper c) (lower s')
  end.

(** [sep.join(parts)]. *)
Fixpoint join (sep : string) (parts : list string) : string :=
  match parts with
  | [] => ""
  | [p] => p
  | p :: rest => p ++ sep ++ join sep rest
  end.

Fixpoint rev_string (acc : string) (s : string) : string :=
  match s with
  | EmptyString => acc
  | String c s' => rev_string (String c acc) s'
  end.

Definition flush (cur : string) (out : list string) : list string :=
  match cur with
  | EmptyString => out
  | _ => rev_string "" cur :: out
  end.

(** [s.split()]: the maximal runs of non-whitespace characters, in order.
    [cur] is the run being read, in reverse. *)
Fixpoint split_go (s : string) (cur : string) (out : list string) : list string :=
  match s with
  | EmptyString => rev (flush cur out)
  | String c s' =>
      if char_isspace c then split_go s' "" (flush cur out)
      else split_go s' (String c cur) out
  end.

Definition split (s : string) : list string := split_go s "" [].

(** [s.strip()]. *)
Fixpoint lstrip (s : string) : string :=
  match s with
  | EmptyString => EmptyString
  | String c s' => if char_isspace c then lstrip s' else s
  end.

Definition strip (s : string) : string :=
  rev_string "" (lstrip (rev_string "" (lstrip s))).

End Str.


(** ** Dates and times

    The proleptic Gregorian calendar of the interpreter's [datetime] module:
    ordinals count days from 0001-01-01 = 1, and Monday is weekday 0. *)

Module datetime.

Record t : Type := mk {
  year : Z;
  month : Z;
  day : Z;
  hour : Z;
  minute : Z;
  second : Z;
  microsecond : Z
}.

Definition MINYEAR : Z := 1.
Definition MAXYEAR : Z := 9999.

Definition is_leap (y : Z) : bool :=
  (y mod 4 =? 0) && (negb (y mod 100 =? 0) || (y mod 400 =? 0)).

Definition days_in_month (y m : Z) : Z :=
  if (m =? 2) && is_leap y then 29
  else if m =? 2 then 28
  else if (m =? 4) || (m =? 6) || (m =? 9) || (m =? 11) then 30
  else 31.

Definition days_before_year (y : Z) : Z :=
  let p := y - 1 in p * 365 + p / 4 - p / 100 + p / 400.

(** Days of the year before the first of month [m], in a common year. *)
Definition days_before_month_common (m : Z) : Z :=
  if m =? 1 then 0 else if m =? 2 then 31 else if m =? 3 then 59
  else if m =? 4 then 90 else if m =? 5 then 120 else if m =? 6 then 151
  else if m =? 7 then 181 else if m =? 8 then 212 else if m =? 9 then 243
  else if m =? 10 then 273 else if m =? 11 then 304 else 334.

Definition days_before_month (y m : Z) : Z :=
  days_before_month_common m + (if (2 <? m) && is_leap y then 1 else 0).

Definition ymd2ord (y m d : Z) : Z :=
  days_before_year y + days_before_month y m + d.

Definition toordinal (dt : t) : Z := ymd2ord (year dt) (month dt) (day dt).

(** [dt.weekday()]: Monday is 0, Sunday is 6. *)
Definition weekday (dt : t) : Z := (toordinal dt + 6) mod 7.

(** [str(n)] for an integer. *)
Definition str_of_int (n : Z) : string := NilZero.string_of_int (Z.to_int n).

(** The constructor's check of the date fields. The messages are those of
    CPython 3.12 and 3.13, the first versions that read the source's
    f-strings. *)
Definition check_date_fields (y m d : Z) : res unit :=
  if negb ((MINYEAR <=? y) && (y <=? MAXYEAR)) then
    Raise (ValueError ("year " ++ str_of_int y ++ " is out of range"))
  else if negb ((1 <=? m) && (m <=? 12)) then
    Raise (ValueError "month must be in 1..12")
  else if negb ((1 <=? d) && (d <=? days_in_month y m)) then
    Raise (ValueError "day is out of range for month")
  else Ok tt.

Definition valid_date (y m d : Z) : bool :=
  (MINYEAR <=? y) && (y <=? MAXYEAR) && (1 <=? m) && (m <=? 12)
  && (1 <=? d) && (d <=? days_in_month y m).

Definition valid_time (dt : t) : bool :=
  (0 <=? hour dt) && (hour dt <? 24) && (0 <=? minute dt) && (minute dt <? 60)
  && (0 <=? second dt) && (second dt <? 60)
  && (0 <=? microsecond dt) && (microsecond dt <? 1000000).

(** A value the [datetime] constructor can build. *)
Definition valid (dt : t) : bool :=
  valid_date (year dt) (month dt) (day dt) && valid_time dt.

(** [dt.replace(year=y)]: the same fields under another year, checked
    again by the constructor. *)
Definition replace_year (dt : t) (y : Z) : res t :=
  (_ <- check_date_fields y (month dt) (day dt) ;;
   Ok (mk y (month dt) (day dt) (hour dt) (minute dt) (second dt) (microsecond dt)))%res.

(** [dt.replace(day=d)]. *)
Definition replace_day (dt : t) (d : Z) : res t :=
  (_ <- check_date_fields (year dt) (month dt) d ;;
   Ok (mk (year dt) (month dt) d (hour dt) (minute dt) (second dt) (microsecond dt)))%res.

(** [a < b] on naive datetimes: the seven fields, compared in order. *)
Fixpoint lex_lt (a b : list Z) : bool :=
  match a, b with
  | x :: a', y :: b' => (x <? y) || ((x =? y) && lex_lt a' b')
  | _, _ => false
  end.

Definition fields (dt : t) : list Z :=
  [year dt; month dt; day dt; hour dt; minute dt; second dt; microsecond dt].

Definition lt (a b : t) : bool := lex_lt (fields a) (fields b).

(** Microseconds since the start of the day. *)
Definition time_of_day (dt : t) : Z :=
  (hour dt * 3600 + minute dt * 60 + second dt) * 1000000 + microsecond dt.

Definition US_PER_DAY : Z := 86400 * 1000000.

(** [(a - b).days]: the difference is a [timedelta], whose seconds and
    microseconds are normalised to be non-negative, so its [days] is the
    floor of the difference in days. *)
Definition sub_days (a b : t) : Z :=
  ((toordinal a - toordinal b) * US_PER_DAY + (time_of_day a - time_of_day b))
  / US_PER_DAY.

Definition digit (n : Z) : ascii := ascii_of_N (48 + Z.to_N (n mod 10)).

Definition pad2 (n : Z) : string :=
  String (digit (n / 10)) (String (digit n) EmptyString).

Definition pad4 (n : Z) : string :=
  String (digit (n / 1000)) (String (digit (n / 100)) (pad2 n)).

(** [dt.strftime("%d.%m.%Y")]: day and month on two digits, the year on
    four (a year under 1000 is padded or not by the platform; no statement
    below formats one). *)
Definition strftime (dt : t) : string :=
  pad2 (day dt) ++ "." ++ pad2 (month dt) ++ "." ++ pad4 (year dt).

(** *** Parsing [%d.%m.%Y]

    [strptime] compiles the format to the regular expression
    [(3[0-1]|[1-2]\d|0[1-9]|[1-9]| [1-9])\.(1[0-2]|0[1-9]|[1-9])\.(\d\d\d\d)],
    matches it at the start of the input, and refuses input that goes on
    after the match. Each group below lists the ways its alternatives can
    match, in the order the expression tries them. The two messages of
    [strptime] are cut short: [Birthday] puts its own in their place. *)

Definition digit_value (c : ascii) : Z := Z.of_N (Str.code c) - 48.

Definition is_digit_in (lo hi : Z) (c : ascii) : bool :=
  Str.char_isdigit c && (lo <=? digit_value c) && (digit_value c <=? hi).

Definition alt2 (p1 p2 : ascii -> bool) (s : string) : list (Z * string) :=
  match s with
  | String c1 (String c2 rest) =>
      if p1 c1 && p2 c2 then [(digit_value c1 * 10 + digit_value c2, rest)] else []
  | _ => []
  end.

Definition alt1 (p : ascii -> bool) (s : string) : list (Z * string) :=
  match s with
  | String c rest => if p c then [(digit_value c, rest)] else []
  | _ => []
  end.

Definition alt_space (p : ascii -> bool) (s : string) : list (Z * string) :=
  match s with
  | String c1 (String c2 rest) =>
      if Ascii.eqb c1 " " && p c2 then [(digit_value c2, rest)] else []
  | _ => []
  end.

Definition group_d (s : string) : list (Z * string) :=
  (alt2 (is_digit_in 3 3) (is_digit_in 0 1) s
   ++ alt2 (is_digit_in 1 2) Str.char_isdigit s
   ++ alt2 (is_digit_in 0 0) (is_digit_in 1 9) s
   ++ alt1 (is_digit_in 1 9) s
   ++ alt_space (is_digit_in 1 9) s)%list.

Definition group_m (s : string) : list (Z * string) :=
  (alt2 (is_digit_in 1 1) (is_digit_in 0 2) s
   ++ alt2 (is_digit_in 0 0) (is_digit_in 1 9) s
   ++ alt1 (is_digit_in 1 9) s)%list.

Definition group_Y (s : string) : list (Z * string) :=
  match s with
  | String c1 (String c2 (String c3 (String c4 rest))) =>
      if Str.char_isdigit c1 && Str.char_isdigit c2
         && Str.char_isdigit c3 && Str.char_isdigit c4
      then [(((digit_value c1 * 10 + digit_value c2) * 10 + digit_value c3) * 10
             + digit_value c4, rest)]
      else []
  | _ => []
  end.

Definition literal_dot (s : string) : list string :=
  match s with
  | String c rest => if Ascii.eqb c "." then [rest] else []
  | _ => []
  end.

(** Every way the whole expression matches a prefix of [s], first match
    first: the fields read and the input left over. *)
Definition regex_matches (s : string) : list (Z * Z * Z * string) :=
  flat_map (fun '(d, s1) =>
    flat_map (fun s2 =>
      flat_map (fun '(m, s3) =>
        flat_map (fun s4 =>
          List.map (fun '(y, s5) => (d, m, y, s5)) (group_Y s4))
        (literal_dot s3))
      (group_m s2))
    (literal_dot s1))
  (group_d s).

(** [datetime.strptime(s, "%d.%m.%Y")]. *)
Definition strptime (s : string) : res t :=
  match regex_matches s with
  | [] => Raise (ValueError "time data does not match format")
  | (d, m, y, rest) :: _ =>
      match rest with
      | String _ _ => Raise (ValueError "unconverted data remains")
      | EmptyString =>
          (_ <- check_date_fields y m d ;; Ok (mk y m d 0 0 0 0))%res
      end
  end.

End datetime.

(** ** Fields *)

Module Name.

Record t : Type := mk { value : string }.

(** [Name(value)]: the value is stored as given, then checked. *)
Definition init (v : string) : res t :=
  if negb (Str.isalpha v) then
    Raise (ValueError "Name should contain only alphabetic characters.")
  else Ok (mk v).

End Name.

Module Phone.

Record t : Type := mk { value : string }.

Definition init (v : string) : res t :=
  if negb (Str.isdigit v) || negb (Nat.eqb (String.length v) 10) then
    Raise (ValueError "Phone number should contain 10 digits.")
  else Ok (mk v).

End Phone.

Module Birthday.

Record t : Type := mk { value : datetime.t }.

(** [Birthday(value)]: any [ValueError] of the parse is raised again under
    the field's own message. *)
Definition init (v : string) : res t :=
  match datetime.strptime v with
  | Ok d => Ok (mk d)
  | Raise (ValueError _) => Raise (ValueError "Invalid date format. Use DD.MM.YYYY")
  | Raise e => Raise e
  end.

End Birthday.

(** ** Record

    A method that mutates the record returns the record after the call. Each
    [Phone] in [phones] is an object of its own, made by [add_phone] and held
    by this list only. *)

Module Record.

Record t : Type := mk {
  name : Name.t;
  phones : list Phone.t;
  birthday : option Birthday.t
}.

Definition init (n : string) : res t :=
  (nm <- Name.init n ;; Ok (mk nm [] None))%res.

Definition add_birthday (r : t) (b : string) : res t :=
  (bd <- Birthday.init b ;; Ok (mk (name r) (phones r) (Some bd)))%res.

Definition add_phone (r : t) (p : string) : res t :=
  (ph <- Phone.init p ;; Ok (mk (name r) (phones r ++ [ph])%list (birthday r)))%res.

(** The phone values, in list order: [[p.value for p in self.phones]]. *)
Definition phone_values (r : t) : list string := List.map Phone.value (phones r).

(** [del l[i]]. *)
Fixpoint delete_at {A : Type} (i : nat) (l : list A) : list A :=
  match l, i with
  | [], _ => []
  | _ :: l', O => l'
  | x :: l', S i' => x :: delete_at i' l'
  end.

(** The loop of [remove_phone]. The list iterator holds an index [i] into
    the live list: each round reads [phones[i]] if there is one, and moves
    to [i + 1]. [self.phones.remove(p)] removes the first entry equal to
    [p]; [Phone] defines no equality, so that is the object [p] itself, the
    entry at index [i]. The first argument bounds the rounds left; at
    [length l - i] the bound and the end of the list fall together. *)
Fixpoint remove_phone_loop (n i : nat) (l : list Phone.t) (phone : string)
  : list Phone.t :=
  match n with
  | O => l
  | S n' =>
      match nth_error l i with
      | None => l
      | Some p =>
          if String.eqb (Phone.value p) phone
          then remove_phone_loop n' (S i) (delete_at i l) phone
          else remove_phone_loop n' (S i) l phone
      end
  end.

Definition remove_phone (r : t) (phone : string) : t :=
  mk (name r)
     (remove_phone_loop (List.length (phones r)) 0 (phones r) phone)
     (birthday r).

(** The loop of [edit_phone]: every entry is visited once, and one whose
    value is [old_phone] gets [new_phone]. *)
Fixpoint edit_phone_loop (l : list Phone.t) (old_phone new_phone : string)
  : list Phone.t :=
  match l with
  | [] => []
  | p :: l' =>
      (if String.eqb (Phone.value p) old_phone then Phone.mk new_phone else p)
      :: edit_phone_loop l' old_phone new_phone
  end.

Definition edit_phone (r : t) (old_phone new_phone : string) : t :=
  mk (name r) (edit_phone_loop (phones r) old_phone new_phone) (birthday r).

Fixpoint find_phone_loop (l : list Phone.t) (phone : string) : option string :=
  match l with
  | [] => None
  | p :: l' =>
      if String.eqb (Phone.value p) phone then Some (Phone.value p)
      else find_phone_loop l' phone
  end.

Definition find_phone (r : t) (phone : string) : option string :=
  find_phone_loop (phones r) phone.

(** [str(record)]. *)
Definition str (r : t) : string :=
  let birthday_str :=
    match birthday r with
    | Some b => datetime.strftime (Birthday.value b)
    | None => "no birthday record"
    end in
  "Contact name: " ++ Str.capitalize (Name.value (name r))
  ++ ", Phones: " ++ Str.join ", " (phone_values r)
  ++ ", Birthday: " ++ birthday_str.

End Record.

(** ** The dictionary under the address book

    A Python [dict] keeps its keys in insertion order: an assignment to a key
    already present replaces the value where it stands, a new key goes to the
    end. *)

Module dict.

Definition t (V : Type) : Type := list (string * V).

Fixpoint get {V : Type} (d : t V) (k : string) : option V :=
  match d with
  | [] => None
  | (k', v) :: d' => if String.eqb k' k then Some v else get d' k
  end.

Fixpoint set {V : Type} (d : t V) (k : string) (v : V) : t V :=
  match d with
  | [] => [(k, v)]
  | (k', v') :: d' =>
      if String.eqb k' k then (k', v) :: d' else (k', v') :: set d' k v
  end.

Fixpoint remove {V : Type} (d : t V) (k : string) : t V :=
  match d with
  | [] => []
  | (k', v) :: d' => if String.eqb k' k then d' else (k', v) :: remove d' k
  end.

(** [d.pop(k)]: the value and the dictionary without the key, or
    [KeyError]. *)
Definition pop {V : Type} (d : t V) (k : string) : res (V * t V) :=
  match get d k with
  | Some v => Ok (v, remove d k)
  | None => Raise (KeyError k)
  end.

Definition values {V : Type} (d : t V) : list V := List.map snd d.

Definition keys {V : Type} (d : t V) : list string := List.map fst d.

End dict.

(** ** AddressBook *)

Module AddressBook.

(** The [UserDict]: its [data] maps a name to the contact's record. *)
Record t : Type := mk { data : dict.t Record.t }.

(** [AddressBook()]. *)
Definition empty : t := mk [].

(** [self.data[record.name.value] = record]. *)
Definition add_record (book : t) (record : Record.t) : t :=
  mk (dict.set (data book) (Name.value (Record.name record)) record).

(** [return self.data.pop(name)]: the record taken out and the book after
    the call; a [KeyError] leaves the book as it was. *)
Definition delete (book : t) (n : string) : res Record.t * t :=
  match dict.pop (data book) n with
  | Ok (r, d') => (Ok r, mk d')
  | Raise e => (Raise e, book)
  end.

(** [return self.data.get(name)]. *)
Definition find (book : t) (n : string) : option Record.t :=
  dict.get (data book) n.

(** One entry of the list [get_upcoming_birthdays] returns: the dictionary
    with the keys ["name"] and ["congratulation_date"]. *)
Record upcoming : Type := mk_upcoming {
  name : string;
  congratulation_date : string
}.

(** The [while] loop that moves a weekend date forward:
    [while d.weekday() > 4: d = d.replace(day=d.day + 1)]. The first
    argument bounds the rounds left; [weekend_rounds] is the number of
    rounds after which the weekday is Monday at the latest. *)
Fixpoint adjust_loop (n : nat) (d : datetime.t) : res datetime.t :=
  match n with
  | O => Ok d
  | S n' =>
      if 4 <? datetime.weekday d then
        (d' <- datetime.replace_day d (datetime.day d + 1) ;; adjust_loop n' d')%res
      else Ok d
  end.

Definition weekend_rounds (d : datetime.t) : nat :=
  Z.to_nat (7 - datetime.weekday d).

Definition adjust_weekend (d : datetime.t) : res datetime.t :=
  adjust_loop (weekend_rounds d) d.

(** The body of the [for] loop, for one record: the entry it appends, if
    any. *)
Definition upcoming_of (today : datetime.t) (record : Record.t)
  : res (option upcoming) :=
  match Record.birthday record with
  | None => Ok None
  | Some b =>
      let birthday := Birthday.value b in
      (this_year <- datetime.replace_year birthday (datetime.year today) ;;
       birthday_this_year <-
         (if datetime.lt this_year today
          then datetime.replace_year birthday (datetime.year today + 1)
          else Ok this_year) ;;
       let days_until_birthday := datetime.sub_days birthday_this_year today in
       if (0 <=? days_until_birthday) && (days_until_birthday <=? 7) then
         (congratulation <- adjust_weekend birthday_this_year ;;
          Ok (Some (mk_upcoming (Name.value (Record.name record))
                                (datetime.strftime congratulation))))
       else Ok None)%res
  end.

Fixpoint upcoming_loop (today : datetime.t) (records : list Record.t)
  (upcoming_birthdays : list upcoming) : res (list upcoming) :=
  match records with
  | [] => Ok upcoming_birthdays
  | record :: rest =>
      (entry <- upcoming_of today record ;;
       upcoming_loop today rest
         (match entry with
          | Some e => upcoming_birthdays ++ [e]
          | None => upcoming_birthdays
          end)%list)%res
  end.

(** [get_upcoming_birthdays], with the clock's reading as [today]. It
    reads the book and changes nothing in it. *)
Definition get_upcoming_birthdays (book : t) (today : datetime.t)
  : res (list upcoming) :=
  upcoming_loop today (dict.values (data book)) [].

End AddressBook.

(** ** The decorator and the command handlers

    A handler body runs on the address book and either returns or raises; the
    book it leaves behind is the second component. *)

Definition body : Type := AddressBook.t -> res pyval * AddressBook.t.
Definition handler : Type := AddressBook.t -> pyval * AddressBook.t.

(** The [try] statement of [inner]: the three [except] clauses in order. An
    [IndexError] whose message is none of the three listed falls off the end
    of [inner], which then returns [None]. The decorated functions raise no
    exception of another class. *)
Definition inner (outcome : res pyval) : pyval :=
  match outcome with
  | Ok v => v
  | Raise (KeyError _) => PyStr "Contact not found."
  | Raise (ValueError ve) => PyStr ve
  | Raise (IndexError ie) =>
      if String.eqb ie "Please enter a name." then PyStr ie
      else if String.eqb ie "Please enter a name and phone number." then PyStr ie
      else if String.eqb ie "Please enter name, old phone, and new phone." then PyStr ie
      else PyNone
  end.

Definition input_error (func : body) : handler :=
  fun book => let (outcome, book') := func book in (inner outcome, book').

(** [try: ... except ValueError as ve: return str(ve)] around a validation. *)
Definition validated {A : Type} (r : res A) (k : A -> body) : body :=
  fun book =>
    match r with
    | Ok a => k a book
    | Raise (ValueError ve) => (Ok (PyStr ve), book)
    | Raise e => (Raise e, book)
    end.

Definition returns (s : string) : body := fun book => (Ok (PyStr s), book).
Definition raises (e : exn) : body := fun book => (Raise e, book).

(** A record found in the book is the object the book holds: a method that
    mutates it changes the entry under its key, where it stands. *)
Definition mutated (key : string) (r : Record.t) (book : AddressBook.t)
  : AddressBook.t :=
  AddressBook.mk (dict.set (AddressBook.data book) key r).

(** [x in xs] on strings. *)
Definition str_in (x : string) (xs : list string) : bool :=
  existsb (String.eqb x) xs.

Definition newline : string := String (ascii_of_N 10) EmptyString.

Definition parse_input (user_input : string) : pyval :=
  inner
    match Str.split user_input with
    | [] => Raise (ValueError "not enough values to unpack (expected at least 1, got 0)")
    | cmd :: args =>
        Ok (PyTuple (Str.lower (Str.strip cmd) :: List.map Str.lower args))
    end.

Definition add_contact_body (args : list string) : body :=
  match args with
  | [name; phone] =>
      validated (record <- Record.init name ;; Record.add_phone record phone)%res
        (fun record book =>
           match AddressBook.find book name with
           | None => (Ok (PyStr "Contact added."), AddressBook.add_record book record)
           | Some existing_record =>
               if negb (str_in phone (Record.phone_values existing_record)) then
                 match Record.add_phone existing_record phone with
                 | Ok r' => (Ok (PyStr "Contact updated."), mutated name r' book)
                 | Raise e => (Raise e, book)
                 end
               else (Ok (PyStr "Phone number already exists for this contact."), book)
           end)
  | _ => raises (IndexError "Please enter a name and phone number.")
  end.

Definition add_contact (args : list string) : handler :=
  input_error (add_contact_body args).

(** [book.delete] never returns [None], so the test [record is None] after
    it is never true: an absent name leaves by the [KeyError]. *)
Definition delete_contact_body (args : list string) : body :=
  match args with
  | [name_input] =>
      validated (Name.init name_input)
        (fun name book =>
           match AddressBook.delete book (Name.value name) with
           | (Ok _, book') => (Ok (PyStr "Contact deleted."), book')
           | (Raise e, book') => (Raise e, book')
           end)
  | _ => raises (IndexError "Please enter a name.")
  end.

Definition delete_contact (args : list string) : handler :=
  input_error (delete_contact_body args).

Definition remove_contact_phone_body (args : list string) : body :=
  match args with
  | [name; phone] =>
      validated (n <- Name.init name ;; p <- Phone.init phone ;; Ok (n, p))%res
        (fun '(name, phone) book =>
           match AddressBook.find book (Name.value name) with
           | None => (Ok (PyStr "Contact not found."), book)
           | Some record =>
               if negb (str_in (Phone.value phone) (Record.phone_values record)) then
                 (Ok (PyStr "Phone number not found in contact's phones."), book)
               else
                 (Ok (PyStr "Phone removed."),
                  mutated (Name.value name)
                    (Record.remove_phone record (Phone.value phone)) book)
           end)
  | _ => raises (IndexError "Please enter a name and phone number.")
  end.

Definition remove_contact_phone (args : list string) : handler :=
  input_error (remove_contact_phone_body args).

Definition change_contact_body (args : list string) : body :=
  match args with
  | [name; old_phone; new_phone] =>
      validated (n <- Name.init name ;; o <- Phone.init old_phone ;;
                 p <- Phone.init new_phone ;; Ok (n, o, p))%res
        (fun '(name, old_phone, new_phone) book =>
           match AddressBook.find book (Name.value name) with
           | None => (Ok (PyStr "Contact not found."), book)
           | Some record =>
               if negb (str_in (Phone.value old_phone) (Record.phone_values record)) then
                 (Ok (PyStr "Old phone number not found in contact's phones."), book)
               else
                 (Ok (PyStr "Contact changed."),
                  mutated (Name.value name)
                    (Record.edit_phone record (Phone.value old_phone)
                       (Phone.value new_phone)) book)
           end)
  | _ => raises (IndexError "Please enter name, old phone, and new phone.")
  end.

Definition change_contact (args : list string) : handler :=
  input_error (change_contact_body args).

Definition get_contact_body (name : list string) : body :=
  match name with
  | [name0] =>
      validated (Name.init name0)
        (fun name book =>
           match AddressBook.find book (Name.value name) with
           | None => (Ok (PyStr "Contact not found."), book)
           | Some record =>
               (Ok (PyStr (Str.capitalize (Name.value (Record.name record))
                           ++ "'s phones: "
                           ++ Str.join ", " (Record.phone_values record) ++ ".")),
                book)
           end)
  | _ => raises (IndexError "Please enter a name.")
  end.

Definition get_contact (name : list string) : handler :=
  input_error (get_contact_body name).

Definition get_all_contacts_body : body :=
  fun book =>
    match AddressBook.data book with
    | [] => (Ok (PyStr "No contacts found."), book)
    | d => (Ok (PyStr (Str.join newline (List.map Record.str (dict.values d)))), book)
    end.

Definition get_all_contacts : handler := input_error get_all_contacts_body.

(** The birthday is parsed, printed and parsed again by
    [record.add_birthday]; the second parse stands outside the [try]. *)
Definition add_birthday_body (args : list string) : body :=
  match args with
  | [name; birthday] =>
      validated (n <- Name.init name ;; b <- Birthday.init birthday ;; Ok (n, b))%res
        (fun '(name, birthday) book =>
           match AddressBook.find book (Name.value name) with
           | None => (Ok (PyStr "Contact not found."), book)
           | Some record =>
               match Record.add_birthday record
                       (datetime.strftime (Birthday.value birthday)) with
               | Ok r' => (Ok (PyStr "Birthday added."), mutated (Name.value name) r' book)
               | Raise e => (Raise e, book)
               end
           end)
  | _ => raises (IndexError "Please enter a name and birthday in the format DD.MM.YYYY.")
  end.

Definition add_birthday (args : list string) : handler :=
  input_error (add_birthday_body args).

Definition show_birthday_body (args : list string) : body :=
  match args with
  | [name0] =>
      validated (Name.init name0)
        (fun name book =>
           match AddressBook.find book (Name.value name) with
           | None => (Ok (PyStr "Contact not found."), book)
           | Some record =>
               match Record.birthday record with
               | Some b =>
                   (Ok (PyStr (Str.capitalize (Name.value name) ++ "'s day of birth is "
                               ++ datetime.strftime (Birthday.value b) ++ ".")), book)
               | None =>
                   (Ok (PyStr (Str.capitalize (Name.value name)
                               ++ " has no birthday record.")), book)
               end
           end)
  | _ => raises (IndexError "Please enter a name.")
  end.

Definition show_birthday (args : list string) : handler :=
  input_error (show_birthday_body args).

Definition birthdays_body (today : datetime.t) : body :=
  fun book =>
    match AddressBook.get_upcoming_birthdays book today with
    | Raise e => (Raise e, book)
    | Ok [] => (Ok (PyStr "No upcoming birthdays."), book)
    | Ok upcoming_birthdays =>
        (Ok (PyStr (Str.join newline
               (List.map (fun birthday =>
                            Str.capitalize (AddressBook.name birthday)
                            ++ "'s birthday is on "
                            ++ AddressBook.congratulation_date birthday ++ ".")
                         upcoming_birthdays))), book)
    end.

Definition birthdays (today : datetime.t) : handler :=
  input_error (birthdays_body today).

(** ** Persistence

    [pickle] is the interpreter's: it is taken as a pair of functions between
    address books and file contents. A file system maps a file name to the
    content of the file, if there is one. [pickle.load] returns [None] here
    where it would raise. *)

Section Persistence.

Variable blob : Type.
Variable pickle_dump : AddressBook.t -> blob.
Variable pickle_load : blob -> option AddressBook.t.

Definition filesystem : Type := string -> option blob.

(** [with open(filename, "wb") as f: f.write(content)]: the file is made or
    overwritten, the others stay. *)
Definition write_file (fs : filesystem) (filename : string) (content : blob)
  : filesystem :=
  fun f => if String.eqb f filename then Some content else fs f.

Definition default_filename : string := "addressbook.pkl".

Definition save_data (book : AddressBook.t) (filename : string) (fs : filesystem)
  : filesystem :=
  write_file fs filename (pickle_dump book).

(** [load_data]: [FileNotFoundError] gives a new, empty book; [None] stands
    for an exception that [load_data] lets through. *)
Definition load_data (filename : string) (fs : filesystem) : option AddressBook.t :=
  match fs filename with
  | Some content => pickle_load content
  | None => Some AddressBook.empty
  end.

End Persistence.

Arguments write_file {blob}.
Arguments save_data {blob}.
Arguments load_data {blob}.

(** ** The operations of the address book, as steps on its state *)

Inductive operation : Type :=
| Add_record (record : Record.t)
| Delete (name : string)
| Find (name : string)
| Get_upcoming_birthdays (today : datetime.t).

(** The book after one operation. [find] and [get_upcoming_birthdays] only
    read [self.data]. *)
Definition book_after (op : operation) (book : AddressBook.t) : AddressBook.t :=
  match op with
  | Add_record record => AddressBook.add_record book record
  | Delete name => snd (AddressBook.delete book name)
  | Find _ => book
  | Get_upcoming_birthdays _ => book
  end.

(** Every key is the name of the record it maps to. *)
Definition keys_are_names (book : AddressBook.t) : Prop :=
  forall k r, In (k, r) (AddressBook.data book) -> k = Name.value (Record.name r).

(** ** What the specification's words say, for comparison *)

(** "Removes first phone equal to [p]": the list without the first [p]. *)
Fixpoint spec_remove_first (p : string) (l : list string) : list string :=
  match l with
  | [] => []
  | x :: l' => if String.eqb x p then l' else x :: spec_remove_first p l'
  end.

(** "Finds first phone equal to [old] and replaces its value with [new]". *)
Fixpoint spec_replace_first (old new : string) (l : list string) : list string :=
  match l with
  | [] => []
  | x :: l' =>
      if String.eqb x old then new :: l' else x :: spec_replace_first old new l'
  end.

(** What [edit_phone] does to the values: every [old] becomes [new]. *)
Definition replace_all (old new : string) (l : list string) : list string :=
  List.map (fun x => if String.eqb x old then new else x) l.

(** ** Records, books and loops for the statements *)

(** A record with the given name, phones and birthday, built by the
    constructors; [None] when one of them raises. *)
Definition make_record (n : string) (ps : list string) (b : option string)
  : option Record.t :=
  match
    (r0 <- Record.init n ;;
     r1 <- fold_left (fun acc p => (r <- acc ;; Record.add_phone r p)%res) ps (Ok r0) ;;
     match b with
     | Some s => Record.add_birthday r1 s
     | None => Ok r1
     end)%res
  with
  | Ok r => Some r
  | Raise _ => None
  end.

(** The book that holds the given records, added in order. *)
Definition book_of (records : list Record.t) : AddressBook.t :=
  fold_left AddressBook.add_record records AddressBook.empty.

(** The loop as the iterator runs it, from index [i] on the live list. *)
Definition remove_from (i : nat) (l : list Phone.t) (phone : string) : list Phone.t :=
  Record.remove_phone_loop (List.length l - i) i l phone.

(** The same loop by recursion on the list: an entry that matches is
    dropped, and the entry after it moves into its place behind the
    iterator, so it is kept without being looked at. *)
Fixpoint remove_skipping (phone : string) (l : list Phone.t) : list Phone.t :=
  match l with
  | [] => []
  | p :: l' =>
      if String.eqb (Phone.value p) phone then
        match l' with
        | [] => []
        | q :: l'' => q :: remove_skipping phone l''
        end
      else p :: remove_skipping phone l'
  end.

(** The date [d] with another day of the month, unchecked. *)
Definition with_day (d : datetime.t) (n : Z) : datetime.t :=
  datetime.mk (datetime.year d) (datetime.month d) n
    (datetime.hour d) (datetime.minute d) (datetime.second d) (datetime.microsecond d).

(** How many days after [d] the first weekday on or after [d] lies: two
    after a Saturday, one after a Sunday. *)
Definition days_to_weekday (d : datetime.t) : Z :=
  if datetime.weekday d =? 5 then 2 else if datetime.weekday d =? 6 then 1 else 0.

(** A datetime at 00:00:00.000000, as [strptime] makes them from a date. *)
Definition at_midnight (d : datetime.t) : Prop :=
  datetime.hour d = 0 /\ datetime.minute d = 0
  /\ datetime.second d = 0 /\ datetime.microsecond d = 0.

(** The entry a record is reported with once its date has passed the test
    of the window: the weekend shift, then the formatting. *)
Definition reported (record : Record.t) (birthday_this_year : datetime.t)
  : res (option AddressBook.upcoming) :=
  (congratulation <- AddressBook.adjust_weekend birthday_this_year ;;
   Ok (Some (AddressBook.mk_upcoming (Name.value (Record.name record))
                                     (datetime.strftime congratulation))))%res.

(** The entries a list of loop results stands for. *)
Definition entries (results : list (option AddressBook.upcoming))
  : list AddressBook.upcoming :=
  flat_map (fun e => match e with Some x => [x] | None => [] end) results.

(** ** The read loop

    [main] without its terminal: the lines typed are an argument, what is
    handed to [print] is collected in order (the prompt of [input] is not),
    and each round gets the reading of the clock it would take. *)

(** The characters of a string, each as a string of its own: what
    iterating over a [str] yields. *)
Fixpoint chars (s : string) : list string :=
  match s with
  | EmptyString => []
  | String c s' => String c EmptyString :: chars s'
  end.

(** [command, *args = value]: a tuple or a string with a first item; anything
    else makes the assignment raise. *)
Definition unpack (value : pyval) : option (string * list string) :=
  match value with
  | PyTuple (command :: args) => Some (command, args)
  | PyStr (String c rest) => Some (String c EmptyString, chars rest)
  | _ => None
  end.

(** How a round of the loop ends: the loop goes on, it is left by [break],
    or an exception leaves [main]. *)
Inductive round : Type :=
| Continue (printed : list pyval) (book : AddressBook.t)
| Break (printed : list pyval)
| Uncaught.

(** One round of [while True], up to the [break]: the file is written by
    [main_loop] below. *)
Definition dispatch (user_input : string) (today : datetime.t) (book : AddressBook.t)
  : round :=
  match unpack (parse_input user_input) with
  | None => Uncaught
  | Some (command, args) =>
      let print := fun (r : pyval * AddressBook.t) => Continue [fst r] (snd r) in
      if str_in command ["close"; "exit"] then Break [PyStr "Good bye!"]
      else if String.eqb command "hello" then Continue [PyStr "How can I help you?"] book
      else if String.eqb command "add" then print (add_contact args book)
      else if String.eqb command "delete" then print (delete_contact args book)
      else if String.eqb command "remove" then print (remove_contact_phone args book)
      else if String.eqb command "change" then print (change_contact args book)
      else if String.eqb command "phone" then print (get_contact args book)
      else if String.eqb command "all" then print (get_all_contacts book)
      else if String.eqb command "add-birthday" then print (add_birthday args book)
      else if String.eqb command "show-birthday" then print (show_birthday args book)
      else if String.eqb command "birthdays" then print (birthdays today book)
      else Continue [PyStr "Invalid command."] book
  end.

Section Main.

Variable blob : Type.
Variable pickle_dump : AddressBook.t -> blob.
Variable pickle_load : blob -> option AddressBook.t.

(** Where a run of [main] stands when the typed lines are used up: still
    reading, returned after [close] or [exit], or left by an exception. *)
Inductive run : Type :=
| Reading (printed : list pyval) (book : AddressBook.t) (fs : filesystem blob)
| Returned (printed : list pyval) (fs : filesystem blob)
| Raised (printed : list pyval).

Fixpoint main_loop (lines : list (string * datetime.t)) (book : AddressBook.t)
  (fs : filesystem blob) (printed : list pyval) : run :=
  match lines with
  | [] => Reading printed book fs
  | (user_input, today) :: rest =>
      match dispatch user_input today book with
      | Continue p book' => main_loop rest book' fs (printed ++ p)%list
      | Break p =>
          Returned (printed ++ p)%list (save_data pickle_dump book default_filename fs)
      | Uncaught => Raised printed
      end
  end.

Definition main (lines : list (string * datetime.t)) (fs : filesystem blob) : run :=
  match load_data pickle_load default_filename fs with
  | None => Raised []
  | Some book => main_loop lines book fs [PyStr "Welcome to the assistant bot!"]
  end.

End Main.

Arguments Reading {blob}.
Arguments Returned {blob}.
Arguments Raised {blob}.
Arguments main_loop {blob}.
Arguments main {blob}.

(** ** What the handlers keep true of the book *)

(** A phone [Phone] accepts. *)
Definition phone_ok (s : string) : bool :=
  Str.isdigit s && Nat.eqb (String.length s) 10.



(** A phone other than [phone]. *)
Definition other_than (phone : string) (x : string) : bool := negb (String.eqb x phone).

(** The entry of one record in the list of the query, if its round of the
    loop appends one. *)
Definition entry_of (today : datetime.t) (r : Record.t) : list AddressBook.upcoming :=
  match AddressBook.upcoming_of today r with
  | Ok (Some e) => [e]
  | _ => []
  end.

(** A word: at least one character, none of them white space. *)
Definition word (t : string) : Prop :=
  Str.nonempty t = true /\ Str.any Str.char_isspace t = false.

(** An outcome that, if it is an exception, is a [ValueError]. *)
Definition only_ValueError {A : Type} (r : res A) : Prop :=
  forall e, r = Raise e -> exists msg, e = ValueError msg.

(** * Properties *)

(** ** Characters and strings *)

Lemma code_lt_256 (c : ascii) : (Str.code c < 256)%N.
Proof. unfold Str.code. apply N_ascii_bounded. Qed.

Lemma code_of_ascii_of_N (n : N) : (n < 256)%N -> Str.code (ascii_of_N n) = n.
Proof. intros H. unfold Str.code. now apply N_ascii_embedding. Qed.

Lemma in_range_spec (lo hi : N) (c : ascii) :
  Str.in_range lo hi c = true <-> (lo <= Str.code c <= hi)%N.
Proof.
  unfold Str.in_range. rewrite andb_true_iff, !N.leb_le. tauto.
Qed.

Lemma in_range_false (lo hi : N) (c : ascii) :
  Str.in_range lo hi c = false <-> (Str.code c < lo \/ hi < Str.code c)%N.
Proof.
  unfold Str.in_range. rewrite andb_false_iff, !N.leb_gt. tauto.
Qed.

Lemma char_lower_fixed (c : ascii) :
  Str.char_lower c = c <-> Str.is_upper c = false.
Proof.
  unfold Str.char_lower. destruct (Str.is_upper c) eqn:U; split; intros H; try easy.
  exfalso. apply in_range_spec in U.
  assert (E : Str.code (ascii_of_N (Str.code c + 32)) = Str.code c) by now rewrite H.
  rewrite code_of_ascii_of_N in E; lia.
Qed.

Lemma char_lower_not_upper (c : ascii) : Str.is_upper (Str.char_lower c) = false.
Proof.
  unfold Str.char_lower. destruct (Str.is_upper c) eqn:U; [| exact U].
  apply in_range_spec in U. apply in_range_false.
  rewrite code_of_ascii_of_N; lia.
Qed.

Lemma lower_fixed (s : string) :
  Str.lower s = s <-> Str.any Str.is_upper s = false.
Proof.
  unfold Str.lower. induction s as [| c s IH]; simpl.
  - tauto.
  - rewrite orb_false_iff, <- IH, <- char_lower_fixed. split.
    + intros H. now inversion H as [[Hc Hs]]; rewrite Hc, Hs.
    + intros [Hc Hs]. now rewrite Hc, Hs.
Qed.

Lemma lower_idempotent (s : string) : Str.lower (Str.lower s) = Str.lower s.
Proof.
  apply lower_fixed. unfold Str.lower.
  induction s as [| c s IH]; simpl; [reflexivity |].
  now rewrite char_lower_not_upper, IH.
Qed.

(** The three classes the specification names are disjoint from the letters. *)
Lemma not_letter (c : ascii) :
  Str.char_isdigit c || Str.char_isspace c || Str.char_issymbol c = true ->
  Str.char_isalpha c = false.
Proof.
  unfold Str.char_isdigit, Str.char_isspace, Str.char_issymbol, Str.char_isalpha,
    Str.is_upper, Str.is_lower.
  rewrite !orb_true_iff, !in_range_spec, orb_false_iff, !in_range_false. lia.
Qed.

Lemma all_false_of_any (p q : ascii -> bool) (s : string) :
  (forall c, q c = true -> p c = false) ->
  Str.any q s = true -> Str.all p s = false.
Proof.
  intros Hpq. induction s as [| c s IH]; simpl; [discriminate |].
  rewrite orb_true_iff, andb_false_iff. intros [H | H]; auto.
Qed.

(** Every token [parse_input] hands on is in lower case. *)
Lemma parse_input_lower (user_input : string) (items : list string) :
  parse_input user_input = PyTuple items ->
  forall a, In a items -> Str.lower a = a.
Proof.
  unfold parse_input. destruct (Str.split user_input) as [| cmd args]; simpl;
    [discriminate |].
  intros E a Ha. injection E as <-. destruct Ha as [<- | Ha].
  - apply lower_idempotent.
  - apply in_map_iff in Ha as (x & <- & _). apply lower_idempotent.
Qed.

(** ** Name *)

Lemma Name_init_ok (s : string) (n : Name.t) :
  Name.init s = Ok n -> n = Name.mk s /\ Str.isalpha s = true.
Proof.
  unfold Name.init. destruct (Str.isalpha s); simpl; [| discriminate].
  intros E. now injection E as <-.
Qed.

(** C7, as stated, fails: [Name("John")] is accepted and keeps its capital. *)
Lemma Name_keeps_upper_case :
  Name.init "John" = Ok (Name.mk "John")
  /\ Name.value (Name.mk "John") <> Str.lower "John".
Proof. split; [reflexivity | discriminate]. Qed.

(** C7, amended: an accepted name is stored as it was given, so the stored
    value is the lower-case form of the input exactly when the input holds no
    upper-case letter; the lower-casing is [parse_input]'s, and a name that
    is one of its tokens is stored in lower case. *)
Theorem Name_value_is_input (s : string) (n : Name.t) :
  Name.init s = Ok n ->
  Name.value n = s
  /\ (Name.value n = Str.lower s <-> Str.any Str.is_upper s = false)
  /\ (forall user_input items,
        parse_input user_input = PyTuple items -> In s items ->
        Name.value n = Str.lower s).
Proof.
  intros H. apply Name_init_ok in H as [-> _]. simpl.
  split; [reflexivity |]. split.
  - rewrite <- lower_fixed. split; intros E; symmetry; exact E.
  - intros user_input items Hp Hin. symmetry.
    now apply (parse_input_lower user_input items).
Qed.

Lemma Name_value_is_input_witness :
  Name.init "john" = Ok (Name.mk "john")
  /\ Name.value (Name.mk "john") = "john"
  /\ Name.value (Name.mk "John") = "John".
Proof.
  split; [reflexivity |]. split.
  - exact (proj1 (Name_value_is_input "john" (Name.mk "john") eq_refl)).
  - exact (proj1 (Name_value_is_input "John" (Name.mk "John") eq_refl)).
Defined.

(** C8, as stated, fails at the empty string: it holds nothing but letters,
    and it is refused. *)
Lemma Name_refuses_empty :
  Str.all Str.char_isalpha "" = true
  /\ Name.init "" = Raise (ValueError "Name should contain only alphabetic characters.").
Proof. split; reflexivity. Qed.

(** C8, amended: a string that is not empty and holds only letters is
    accepted; a string that holds a digit, a space or a symbol is refused with
    the validation error, and so is the empty string. *)
Theorem Name_init_accepts_letters (s : string) :
  (s <> "" -> Str.all Str.char_isalpha s = true -> Name.init s = Ok (Name.mk s))
  /\ (Str.any (fun c => Str.char_isdigit c || Str.char_isspace c || Str.char_issymbol c) s
      = true ->
      Name.init s = Raise (ValueError "Name should contain only alphabetic characters."))
  /\ Name.init "" = Raise (ValueError "Name should contain only alphabetic characters.").
Proof.
  split; [| split; [| reflexivity]].
  - intros Hne Hall. unfold Name.init, Str.isalpha. rewrite Hall.
    destruct s; [contradiction | reflexivity].
  - intros Hany. unfold Name.init, Str.isalpha.
    rewrite (all_false_of_any _ _ s not_letter Hany), andb_false_r. reflexivity.
Qed.

Lemma Name_init_accepts_letters_witness :
  Name.init "John" = Ok (Name.mk "John")
  /\ Name.init "j0hn" = Raise (ValueError "Name should contain only alphabetic characters.")
  /\ Name.init "mary ann" = Raise (ValueError "Name should contain only alphabetic characters.")
  /\ Name.init "o'neil" = Raise (ValueError "Name should contain only alphabetic characters.").
Proof.
  split; [| split; [| split]].
  - apply (proj1 (Name_init_accepts_letters "John")); [discriminate | reflexivity].
  - apply (proj1 (proj2 (Name_init_accepts_letters "j0hn"))). reflexivity.
  - apply (proj1 (proj2 (Name_init_accepts_letters "mary ann"))). reflexivity.
  - apply (proj1 (proj2 (Name_init_accepts_letters "o'neil"))). reflexivity.
Defined.

(** ** Record: the phone list *)

Lemma delete_at_length {A : Type} (i : nat) (l : list A) :
  (i < List.length l)%nat -> S (List.length (Record.delete_at i l)) = List.length l.
Proof.
  revert i. induction l as [| x l IH]; intros [| i] H; simpl in *; try lia.
  rewrite IH; lia.
Qed.

(** More rounds than the list has entries left change nothing: the bound of
    [remove_phone_loop] is never what ends the loop. *)
Lemma remove_phone_loop_enough (phone : string) (n m i : nat) (l : list Phone.t) :
  (List.length l - i <= n)%nat -> (List.length l - i <= m)%nat ->
  Record.remove_phone_loop n i l phone = Record.remove_phone_loop m i l phone.
Proof.
  revert m i l. induction n as [| n IH]; intros m i l Hn Hm.
  - destruct m as [| m]; simpl; [reflexivity |].
    rewrite (proj2 (nth_error_None l i)) by lia. reflexivity.
  - destruct m as [| m]; simpl.
    + rewrite (proj2 (nth_error_None l i)) by lia. reflexivity.
    + destruct (nth_error l i) as [p |] eqn:E; [| reflexivity].
      assert (Hi : (i < List.length l)%nat) by (apply nth_error_Some; congruence).
      destruct (String.eqb (Phone.value p) phone).
      * apply IH; pose proof (delete_at_length i l Hi); lia.
      * apply IH; lia.
Qed.

(** One round of the [for] loop of [remove_phone]. *)
Lemma remove_from_step (i : nat) (l : list Phone.t) (phone : string) :
  remove_from i l phone =
  match nth_error l i with
  | None => l
  | Some p =>
      if String.eqb (Phone.value p) phone
      then remove_from (S i) (Record.delete_at i l) phone
      else remove_from (S i) l phone
  end.
Proof.
  unfold remove_from. destruct (nth_error l i) as [p |] eqn:E.
  - assert (Hi : (i < List.length l)%nat) by (apply nth_error_Some; congruence).
    destruct (List.length l - i)%nat as [| n] eqn:En; [lia |]. simpl. rewrite E.
    destruct (String.eqb (Phone.value p) phone).
    + apply remove_phone_loop_enough; pose proof (delete_at_length i l Hi); lia.
    + apply remove_phone_loop_enough; lia.
  - destruct (List.length l - i)%nat; simpl; [| rewrite E]; reflexivity.
Qed.

Lemma remove_phone_from_0 (r : Record.t) (phone : string) :
  Record.phones (Record.remove_phone r phone) = remove_from 0 (Record.phones r) phone.
Proof. unfold remove_from. simpl. now rewrite Nat.sub_0_r. Qed.

Lemma skipn_nth_error {A : Type} (i : nat) (l : list A) (x : A) :
  nth_error l i = Some x -> skipn i l = x :: skipn (S i) l.
Proof.
  revert i. induction l as [| y l IH]; intros [| i] E; simpl in *; try discriminate.
  - now injection E as ->.
  - now apply IH.
Qed.

(** Without a phone equal to [phone] from index [i] on, the loop leaves the
    list as it is. *)
Lemma remove_phone_loop_absent (phone : string) (n i : nat) (l : list Phone.t) :
  (forall p, In p (skipn i l) -> Phone.value p <> phone) ->
  Record.remove_phone_loop n i l phone = l.
Proof.
  revert i. induction n as [| n IH]; intros i H; simpl; [reflexivity |].
  destruct (nth_error l i) as [p |] eqn:E; [| reflexivity].
  apply skipn_nth_error in E. rewrite E in H.
  destruct (String.eqb_spec (Phone.value p) phone) as [Heq | Hne].
  - exfalso. apply (H p); [now left | exact Heq].
  - apply IH. intros q Hq. apply H. now right.
Qed.

(** [remove_phone] of a phone the record does not hold leaves the record
    unchanged. *)
Lemma remove_phone_absent (r : Record.t) (phone : string) :
  ~ In phone (Record.phone_values r) -> Record.remove_phone r phone = r.
Proof.
  intros H. destruct r as [nm l b]. unfold Record.remove_phone. simpl in *.
  rewrite remove_phone_loop_absent; [reflexivity |].
  intros p Hp Heq. apply H. unfold Record.phone_values. simpl.
  apply in_map_iff. exists p. split; [exact Heq | exact Hp].
Qed.

Lemma delete_at_split {A : Type} (i : nat) (l : list A) :
  Record.delete_at i l = (firstn i l ++ skipn (S i) l)%list.
Proof.
  revert i. induction l as [| x l IH]; intros [| i]; simpl; try reflexivity.
  now rewrite IH.
Qed.

Lemma firstn_S_nth_error {A : Type} (i : nat) (l : list A) (x : A) :
  nth_error l i = Some x -> firstn (S i) l = (firstn i l ++ [x])%list.
Proof.
  revert i. induction l as [| y l IH]; intros [| i] E; simpl in *; try discriminate.
  - now injection E as ->.
  - now rewrite (IH i E).
Qed.

(** The index loop and the recursion on the list agree. *)
Lemma remove_from_skipping (phone : string) (n : nat) :
  forall (i : nat) (l : list Phone.t),
    (List.length l - i <= n)%nat ->
    remove_from i l phone = (firstn i l ++ remove_skipping phone (skipn i l))%list.
Proof.
  induction n as [| n IH]; intros i l Hn; rewrite remove_from_step.
  - rewrite (proj2 (nth_error_None l i)) by lia.
    rewrite skipn_all2, firstn_all2 by lia. simpl. now rewrite app_nil_r.
  - destruct (nth_error l i) as [p |] eqn:E.
    + assert (Hi : (i < List.length l)%nat) by (apply nth_error_Some; congruence).
      rewrite (skipn_nth_error i l p E). cbn [remove_skipping].
      destruct (String.eqb (Phone.value p) phone).
      * rewrite IH by (pose proof (delete_at_length i l Hi); lia).
        rewrite delete_at_split.
        assert (Hf : List.length (firstn i l) = i) by (rewrite length_firstn; lia).
        destruct (skipn (S i) l) as [| q rest] eqn:Es.
        -- rewrite app_nil_r, (firstn_all2 (firstn i l)), skipn_all2 by lia.
           cbn [remove_skipping]. now rewrite app_nil_r.
        -- rewrite firstn_app, skipn_app, Hf.
           rewrite (firstn_all2 (firstn i l)), (skipn_all2 (firstn i l)) by lia.
           replace (S i - i)%nat with 1%nat by lia.
           cbn [firstn skipn app]. now rewrite <- app_assoc.
      * rewrite IH by lia.
        rewrite (firstn_S_nth_error i l p E), <- app_assoc. reflexivity.
    + rewrite skipn_all2, firstn_all2 by (apply nth_error_None; exact E).
      simpl. now rewrite app_nil_r.
Qed.

Lemma remove_phone_skipping (r : Record.t) (phone : string) :
  Record.phones (Record.remove_phone r phone) = remove_skipping phone (Record.phones r).
Proof.
  rewrite remove_phone_from_0.
  now rewrite (remove_from_skipping phone (List.length (Record.phones r))) by lia.
Qed.

(** Where the record holds [phone] at most once, [remove_phone] removes
    exactly that entry. *)
Lemma remove_skipping_single (phone : string) (l : list Phone.t) :
  (count_occ string_dec (List.map Phone.value l) phone <= 1)%nat ->
  List.map Phone.value (remove_skipping phone l)
  = spec_remove_first phone (List.map Phone.value l).
Proof.
  induction l as [| p l IH]; simpl; [reflexivity |].
  destruct (string_dec (Phone.value p) phone) as [Heq | Hne]; intros Hc.
  - rewrite (proj2 (String.eqb_eq _ _) Heq).
    assert (H0 : count_occ string_dec (List.map Phone.value l) phone = 0%nat) by lia.
    clear IH Hc. destruct l as [| q l']; [reflexivity |]. simpl in *.
    destruct (string_dec (Phone.value q) phone); [discriminate |].
    f_equal. clear n.
    assert (Habs : forall l0, count_occ string_dec (List.map Phone.value l0) phone = 0%nat ->
                    remove_skipping phone l0 = l0).
    { induction l0 as [| x l0 IH0]; simpl; [reflexivity |].
      destruct (string_dec (Phone.value x) phone) as [| Hx]; [discriminate |].
      intros Hz. rewrite (proj2 (String.eqb_neq _ _) Hx). now rewrite IH0. }
    now rewrite Habs.
  - rewrite (proj2 (String.eqb_neq _ _) Hne). simpl. now rewrite IH.
Qed.

Lemma remove_phone_single (r : Record.t) (phone : string) :
  (count_occ string_dec (Record.phone_values r) phone <= 1)%nat ->
  Record.phone_values (Record.remove_phone r phone)
  = spec_remove_first phone (Record.phone_values r).
Proof.
  intros H. unfold Record.phone_values. rewrite remove_phone_skipping.
  now apply remove_skipping_single.
Qed.

(** C5 at a record that holds a phone twice: [remove_phone] takes out both
    entries, where the first alone was to go. With the phone three times in
    a row it takes out the first and the third, and the second, which it
    never looks at, stays. *)
Theorem remove_phone_takes_later_duplicate :
  exists r r',
    make_record "john" ["1111111111"; "2222222222"; "1111111111"] None = Some r
    /\ Record.phone_values (Record.remove_phone r "1111111111") = ["2222222222"]
    /\ spec_remove_first "1111111111" (Record.phone_values r)
       = ["2222222222"; "1111111111"]
    /\ make_record "mary" ["1111111111"; "1111111111"; "1111111111"] None = Some r'
    /\ Record.phone_values (Record.remove_phone r' "1111111111") = ["1111111111"]
    /\ spec_remove_first "1111111111" (Record.phone_values r')
       = ["1111111111"; "1111111111"].
Proof. do 2 eexists. repeat (split; [reflexivity |]). reflexivity. Qed.

(** The record of C5 is one the commands build: the [change] command gives
    a contact a phone it already holds, and [remove] then takes out both. *)
Lemma remove_command_takes_both :
  let run := fun (h : handler) (st : list pyval * AddressBook.t) =>
               let (v, book) := h (snd st) in ((fst st ++ [v])%list, book) in
  let st := run (get_contact ["john"])
           (run (remove_contact_phone ["john"; "1111111111"])
           (run (get_contact ["john"])
           (run (change_contact ["john"; "3333333333"; "1111111111"])
           (run (add_contact ["john"; "3333333333"])
           (run (add_contact ["john"; "2222222222"])
           (run (add_contact ["john"; "1111111111"]) ([], AddressBook.empty))))))) in
  fst st = [PyStr "Contact added."; PyStr "Contact updated."; PyStr "Contact updated.";
            PyStr "Contact changed.";
            PyStr "John's phones: 1111111111, 2222222222, 1111111111.";
            PyStr "Phone removed."; PyStr "John's phones: 2222222222."].
Proof. reflexivity. Qed.

(** ** edit_phone *)

Lemma edit_phone_loop_values (l : list Phone.t) (old_phone new_phone : string) :
  List.map Phone.value (Record.edit_phone_loop l old_phone new_phone)
  = replace_all old_phone new_phone (List.map Phone.value l).
Proof.
  unfold replace_all. induction l as [| p l IH]; simpl; [reflexivity |].
  rewrite IH. now destruct (String.eqb (Phone.value p) old_phone).
Qed.

Lemma edit_phone_loop_absent (l : list Phone.t) (old_phone new_phone : string) :
  ~ In old_phone (List.map Phone.value l) ->
  Record.edit_phone_loop l old_phone new_phone = l.
Proof.
  induction l as [| p l IH]; simpl; [reflexivity |].
  intros H. destruct (String.eqb_spec (Phone.value p) old_phone) as [E | _].
  - exfalso. apply H. now left.
  - rewrite IH; [reflexivity |]. intros Hin. apply H. now right.
Qed.

(** C6, as stated, fails: on a record that holds [old] twice, [edit_phone]
    rewrites the later entry too. *)
Lemma edit_phone_rewrites_later_duplicate :
  exists r,
    make_record "john" ["1111111111"; "2222222222"; "1111111111"] None = Some r
    /\ Record.phone_values (Record.edit_phone r "1111111111" "3333333333")
       = ["3333333333"; "2222222222"; "3333333333"]
    /\ Record.phone_values (Record.edit_phone r "1111111111" "3333333333")
       <> spec_replace_first "1111111111" "3333333333" (Record.phone_values r).
Proof. eexists. split; [reflexivity |]. split; [reflexivity | discriminate]. Qed.

(** C6, amended: [edit_phone(old, new)] gives the value [new] to every
    phone of the record equal to [old], the first and the later ones, and
    leaves the other phones, the name and the birthday as they are; it changes
    nothing if [old] is not present. *)
Theorem edit_phone_replaces_every_match (r : Record.t) (old_phone new_phone : string) :
  Record.phone_values (Record.edit_phone r old_phone new_phone)
  = replace_all old_phone new_phone (Record.phone_values r)
  /\ Record.name (Record.edit_phone r old_phone new_phone) = Record.name r
  /\ Record.birthday (Record.edit_phone r old_phone new_phone) = Record.birthday r
  /\ (~ In old_phone (Record.phone_values r) ->
      Record.edit_phone r old_phone new_phone = r).
Proof.
  split; [apply edit_phone_loop_values |]. split; [reflexivity |].
  split; [reflexivity |]. intros H. destruct r as [nm l b].
  unfold Record.edit_phone. simpl. now rewrite edit_phone_loop_absent.
Qed.

Lemma edit_phone_replaces_every_match_witness :
  Record.phone_values
    (Record.edit_phone
       (Record.mk (Name.mk "john") [Phone.mk "1111111111"; Phone.mk "2222222222"] None)
       "1111111111" "3333333333")
  = ["3333333333"; "2222222222"]
  /\ Record.edit_phone
       (Record.mk (Name.mk "john") [Phone.mk "1111111111"; Phone.mk "2222222222"] None)
       "4444444444" "3333333333"
     = Record.mk (Name.mk "john") [Phone.mk "1111111111"; Phone.mk "2222222222"] None.
Proof.
  split.
  - exact (proj1 (edit_phone_replaces_every_match
             (Record.mk (Name.mk "john") [Phone.mk "1111111111"; Phone.mk "2222222222"] None)
             "1111111111" "3333333333")).
  - apply (proj2 (proj2 (proj2 (edit_phone_replaces_every_match
             (Record.mk (Name.mk "john") [Phone.mk "1111111111"; Phone.mk "2222222222"] None)
             "4444444444" "3333333333")))).
    simpl. intros [H | [H | []]]; discriminate.
Defined.

(** ** AddressBook: keys and names *)

Lemma dict_set_In {V : Type} (d : dict.t V) (k : string) (v : V) (k' : string) (v' : V) :
  In (k', v') (dict.set d k v) -> In (k', v') d \/ (k' = k /\ v' = v).
Proof.
  induction d as [| [k0 v0] d IH]; simpl.
  - intros [E | []]. injection E as <- <-. now right.
  - destruct (String.eqb_spec k0 k) as [-> | _]; simpl.
    + intros [E | H]; [injection E as <- <-; now right | left; now right].
    + intros [E | H]; [left; now left |].
      destruct (IH H) as [H' | H']; [left; now right | now right].
Qed.

Lemma dict_remove_In {V : Type} (d : dict.t V) (k : string) (k' : string) (v' : V) :
  In (k', v') (dict.remove d k) -> In (k', v') d.
Proof.
  induction d as [| [k0 v0] d IH]; simpl; [tauto |].
  destruct (String.eqb k0 k); simpl; [now right |].
  intros [E | H]; [now left | right; now apply IH].
Qed.

Lemma dict_get_In {V : Type} (d : dict.t V) (k : string) (v : V) :
  dict.get d k = Some v -> In (k, v) d.
Proof.
  induction d as [| [k0 v0] d IH]; simpl; [discriminate |].
  destruct (String.eqb_spec k0 k) as [-> | _].
  - intros E. injection E as ->. now left.
  - intros E. right. now apply IH.
Qed.

Lemma add_record_keeps_keys (book : AddressBook.t) (record : Record.t) :
  keys_are_names book -> keys_are_names (AddressBook.add_record book record).
Proof.
  intros H k r Hin. apply dict_set_In in Hin as [Hin | [-> ->]].
  - now apply H.
  - reflexivity.
Qed.

Lemma delete_keeps_keys (book : AddressBook.t) (n : string) :
  keys_are_names book -> keys_are_names (snd (AddressBook.delete book n)).
Proof.
  intros H. unfold AddressBook.delete, dict.pop.
  destruct (dict.get (AddressBook.data book) n); simpl; [| exact H].
  intros k r Hin. apply H. now apply dict_remove_In in Hin.
Qed.

Lemma empty_keys_are_names : keys_are_names AddressBook.empty.
Proof. intros k r []. Qed.

(** C9: in a book where every key is the name of its record, this is still
    so after [add_record], [delete], [find] or [get_upcoming_birthdays]; the
    empty book is such a book, and so is every book that a run of these
    operations makes from it. A record that [find] returns bears the name it
    was asked for. *)
Theorem keys_are_names_preserved (book : AddressBook.t) (op : operation) :
  keys_are_names book ->
  keys_are_names (book_after op book)
  /\ (forall n r, AddressBook.find book n = Some r -> Name.value (Record.name r) = n).
Proof.
  intros H. split.
  - destruct op; simpl.
    + now apply add_record_keeps_keys.
    + now apply delete_keeps_keys.
    + exact H.
    + exact H.
  - intros n r Hf. symmetry. apply H. now apply dict_get_In.
Qed.

Lemma keys_are_names_preserved_witness :
  keys_are_names AddressBook.empty
  /\ keys_are_names
       (book_after (Add_record (Record.mk (Name.mk "john") [] None)) AddressBook.empty)
  /\ keys_are_names
       (book_after (Delete "john")
          (book_after (Add_record (Record.mk (Name.mk "john") [] None)) AddressBook.empty)).
Proof.
  split; [exact empty_keys_are_names |]. split.
  - exact (proj1 (keys_are_names_preserved AddressBook.empty
                    (Add_record (Record.mk (Name.mk "john") [] None))
                    empty_keys_are_names)).
  - apply (keys_are_names_preserved _ (Delete "john")).
    exact (proj1 (keys_are_names_preserved AddressBook.empty
                    (Add_record (Record.mk (Name.mk "john") [] None))
                    empty_keys_are_names)).
Defined.

(** Every book reached from the empty one has the property. *)
Lemma keys_are_names_reachable (ops : list operation) :
  keys_are_names (fold_left (fun book op => book_after op book) ops AddressBook.empty).
Proof.
  assert (G : forall book, keys_are_names book ->
            keys_are_names (fold_left (fun book op => book_after op book) ops book)).
  { induction ops as [| op ops IH]; intros book H; simpl; [exact H |].
    apply IH.
    destruct op; simpl;
      [now apply add_record_keeps_keys | now apply delete_keeps_keys | exact H | exact H]. }
  apply G, empty_keys_are_names.
Qed.


(** ** The decorator and wrong argument counts *)

(** Six of the seven handlers that take arguments answer a wrong argument
    count with their instruction, and leave the book alone. *)
Lemma wrong_count_message (args : list string) (book : AddressBook.t) :
  (List.length args <> 2%nat ->
     add_contact args book = (PyStr "Please enter a name and phone number.", book)
     /\ remove_contact_phone args book
        = (PyStr "Please enter a name and phone number.", book))
  /\ (List.length args <> 1%nat ->
        delete_contact args book = (PyStr "Please enter a name.", book)
        /\ get_contact args book = (PyStr "Please enter a name.", book)
        /\ show_birthday args book = (PyStr "Please enter a name.", book))
  /\ (List.length args <> 3%nat ->
        change_contact args book
        = (PyStr "Please enter name, old phone, and new phone.", book)).
Proof.
  split; [| split]; intros H.
  - destruct args as [| a [| b [| c args]]]; simpl in H; try lia; split; reflexivity.
  - destruct args as [| a [| b args]]; simpl in H; try lia; repeat split; reflexivity.
  - destruct args as [| a [| b [| c [| d args]]]]; simpl in H; try lia; reflexivity.
Qed.

(** The seventh, [add_birthday], raises an [IndexError] whose message is not
    one of the three [inner] passes on: it returns [None]. *)
Lemma add_birthday_wrong_count (args : list string) (book : AddressBook.t) :
  List.length args <> 2%nat -> add_birthday args book = (PyNone, book).
Proof.
  intros H. destruct args as [| a [| b [| c args]]]; simpl in H; try lia; reflexivity.
Qed.

(** C4 at [add_birthday] with no argument, with one and with three: the
    handler returns [None], not its instruction. *)
Theorem add_birthday_returns_None (book : AddressBook.t) :
  add_birthday [] book = (PyNone, book)
  /\ add_birthday ["john"] book = (PyNone, book)
  /\ add_birthday ["john"; "01.01.2000"; "x"] book = (PyNone, book)
  /\ add_birthday_body [] book
     = (Raise (IndexError "Please enter a name and birthday in the format DD.MM.YYYY."),
        book).
Proof. repeat split. Qed.

(** ** The weekend shift *)

Lemma weekday_range (d : datetime.t) : 0 <= datetime.weekday d <= 6.
Proof. unfold datetime.weekday. pose proof (Z.mod_pos_bound (datetime.toordinal d + 6) 7). lia. Qed.

Lemma check_date_fields_ok (y m d : Z) :
  datetime.check_date_fields y m d = Ok tt <-> datetime.valid_date y m d = true.
Proof.
  unfold datetime.check_date_fields, datetime.valid_date.
  destruct (datetime.MINYEAR <=? y), (y <=? datetime.MAXYEAR), (1 <=? m), (m <=? 12),
    (1 <=? d), (d <=? datetime.days_in_month y m); simpl; split; intros;
    try reflexivity; discriminate.
Qed.

Lemma check_date_fields_raises (y m d : Z) :
  datetime.valid_date y m d = false ->
  exists msg, datetime.check_date_fields y m d = Raise (ValueError msg).
Proof.
  unfold datetime.check_date_fields, datetime.valid_date.
  destruct (datetime.MINYEAR <=? y), (y <=? datetime.MAXYEAR), (1 <=? m), (m <=? 12),
    (1 <=? d), (d <=? datetime.days_in_month y m); simpl; intros;
    try discriminate; eexists; reflexivity.
Qed.

Lemma replace_day_ok (d : datetime.t) (n : Z) :
  datetime.valid_date (datetime.year d) (datetime.month d) n = true ->
  datetime.replace_day d n = Ok (with_day d n).
Proof.
  intros H. unfold datetime.replace_day.
  now rewrite (proj2 (check_date_fields_ok _ _ _) H).
Qed.

Lemma replace_day_raises (d : datetime.t) (n : Z) :
  datetime.valid_date (datetime.year d) (datetime.month d) n = false ->
  exists msg, datetime.replace_day d n = Raise (ValueError msg).
Proof.
  intros H. unfold datetime.replace_day.
  destruct (check_date_fields_raises _ _ _ H) as [msg ->]. now exists msg.
Qed.

Lemma replace_day_inv (d d' : datetime.t) (n : Z) :
  datetime.replace_day d n = Ok d' ->
  d' = with_day d n
  /\ datetime.valid_date (datetime.year d) (datetime.month d) n = true.
Proof.
  unfold datetime.replace_day.
  destruct (datetime.valid_date (datetime.year d) (datetime.month d) n) eqn:V.
  - rewrite (proj2 (check_date_fields_ok _ _ _) V). simpl. intros E.
    now injection E as <-.
  - destruct (check_date_fields_raises _ _ _ V) as [msg ->]. discriminate.
Qed.

Lemma weekday_with_day (d : datetime.t) (k : Z) :
  datetime.weekday (with_day d (datetime.day d + k)) = (datetime.weekday d + k) mod 7.
Proof.
  unfold datetime.weekday, datetime.toordinal, datetime.ymd2ord, with_day. simpl.
  rewrite Zplus_mod_idemp_l. f_equal. lia.
Qed.

Lemma adjust_loop_weekday (n : nat) (d : datetime.t) :
  datetime.weekday d <= 4 -> AddressBook.adjust_loop n d = Ok d.
Proof.
  intros H. destruct n; cbn [AddressBook.adjust_loop]; [reflexivity |].
  now rewrite (proj2 (Z.ltb_ge 4 (datetime.weekday d)) H).
Qed.

(** One round of the [while] loop: [adjust_weekend] is the loop. *)
Lemma adjust_weekend_step (d : datetime.t) :
  AddressBook.adjust_weekend d =
  if 4 <? datetime.weekday d then
    (d' <- datetime.replace_day d (datetime.day d + 1) ;; AddressBook.adjust_weekend d')%res
  else Ok d.
Proof.
  pose proof (weekday_range d) as Hw.
  destruct (4 <? datetime.weekday d) eqn:E.
  - apply Z.ltb_lt in E.
    assert (Hc : datetime.weekday d = 5 \/ datetime.weekday d = 6) by lia.
    unfold AddressBook.adjust_weekend at 1. unfold AddressBook.weekend_rounds.
    destruct (datetime.replace_day d (datetime.day d + 1)) as [d' | e] eqn:R.
    + pose proof R as R'. apply replace_day_inv in R' as [-> _].
      pose proof (weekday_with_day d 1) as W.
      unfold res_bind.
      destruct Hc as [H | H]; rewrite H in *.
      * change (Z.to_nat (7 - 5)) with 2%nat. cbn [AddressBook.adjust_loop].
        rewrite H, R. change (4 <? 5) with true. cbv iota. unfold res_bind.
        unfold AddressBook.adjust_weekend, AddressBook.weekend_rounds.
        rewrite W. change (Z.to_nat (7 - (5 + 1) mod 7)) with 1%nat.
        cbn [AddressBook.adjust_loop]. rewrite W. reflexivity.
      * change (Z.to_nat (7 - 6)) with 1%nat. cbn [AddressBook.adjust_loop].
        rewrite H, R. change (4 <? 6) with true. cbv iota. unfold res_bind.
        unfold AddressBook.adjust_weekend.
        rewrite adjust_loop_weekday; [reflexivity |]. rewrite W. now vm_compute.
    + unfold res_bind.
      destruct Hc as [H | H]; rewrite H.
      * change (Z.to_nat (7 - 5)) with 2%nat. cbn [AddressBook.adjust_loop].
        rewrite H, R. reflexivity.
      * change (Z.to_nat (7 - 6)) with 1%nat. cbn [AddressBook.adjust_loop].
        rewrite H, R. reflexivity.
  - apply Z.ltb_ge in E. unfold AddressBook.adjust_weekend.
    now apply adjust_loop_weekday.
Qed.

(** Where the first weekday on or after [d] lies in the month of [d], the
    shift ends on it. *)
Lemma adjust_weekend_in_month (d : datetime.t) :
  datetime.valid_date (datetime.year d) (datetime.month d) (datetime.day d) = true ->
  datetime.day d + days_to_weekday d
    <= datetime.days_in_month (datetime.year d) (datetime.month d) ->
  AddressBook.adjust_weekend d = Ok (with_day d (datetime.day d + days_to_weekday d))
  /\ datetime.weekday (with_day d (datetime.day d + days_to_weekday d)) <= 4.
Proof.
  intros V Hin. pose proof (weekday_range d) as Hw.
  assert (Vd : forall k, 0 <= k -> datetime.day d + k
                 <= datetime.days_in_month (datetime.year d) (datetime.month d) ->
               datetime.valid_date (datetime.year d) (datetime.month d) (datetime.day d + k)
               = true).
  { intros k Hk Hle. unfold datetime.valid_date in *.
    rewrite !andb_true_iff in *. rewrite !Z.leb_le in *. lia. }
  unfold days_to_weekday in *.
  destruct (datetime.weekday d =? 5) eqn:E5; [apply Z.eqb_eq in E5 |].
  - split.
    + rewrite adjust_weekend_step, E5. change (4 <? 5) with true. cbv iota.
      rewrite replace_day_ok by (apply Vd; lia). unfold res_bind.
      pose proof (weekday_with_day d 1) as W1. rewrite E5 in W1.
      rewrite adjust_weekend_step, W1. change (4 <? (5 + 1) mod 7) with true. cbv iota.
      rewrite replace_day_ok
        by (simpl; replace (datetime.day d + 1 + 1) with (datetime.day d + 2) by lia;
            apply Vd; lia).
      unfold res_bind. rewrite adjust_weekend_step.
      change (with_day (with_day d (datetime.day d + 1))
                (datetime.day (with_day d (datetime.day d + 1)) + 1))
        with (with_day d (datetime.day d + 1 + 1)).
      replace (datetime.day d + 1 + 1) with (datetime.day d + 2) by lia.
      rewrite (weekday_with_day d 2), E5. reflexivity.
    + rewrite (weekday_with_day d 2), E5. now vm_compute.
  - destruct (datetime.weekday d =? 6) eqn:E6; [apply Z.eqb_eq in E6 |].
    + split.
      * rewrite adjust_weekend_step, E6. change (4 <? 6) with true. cbv iota.
        rewrite replace_day_ok by (apply Vd; lia). unfold res_bind.
        rewrite adjust_weekend_step, (weekday_with_day d 1), E6. reflexivity.
      * rewrite (weekday_with_day d 1), E6. now vm_compute.
    + apply Z.eqb_neq in E5, E6. rewrite Z.add_0_r.
      assert (Hd : with_day d (datetime.day d) = d) by now destruct d.
      rewrite Hd. split; [| lia].
      rewrite adjust_weekend_step. now rewrite (proj2 (Z.ltb_ge 4 _)) by lia.
Qed.

(** Where it lies in the next month, [replace] is handed a day the month
    does not have, and the [ValueError] leaves the loop. *)
Lemma adjust_weekend_past_month (d : datetime.t) :
  datetime.valid_date (datetime.year d) (datetime.month d) (datetime.day d) = true ->
  datetime.days_in_month (datetime.year d) (datetime.month d)
    < datetime.day d + days_to_weekday d ->
  exists msg, AddressBook.adjust_weekend d = Raise (ValueError msg).
Proof.
  intros V Hout. pose proof (weekday_range d) as Hw.
  assert (Vd : forall k, 0 <= k -> datetime.day d + k
                 <= datetime.days_in_month (datetime.year d) (datetime.month d) ->
               datetime.valid_date (datetime.year d) (datetime.month d) (datetime.day d + k)
               = true).
  { intros k Hk Hle. unfold datetime.valid_date in *.
    rewrite !andb_true_iff in *. rewrite !Z.leb_le in *. lia. }
  assert (Vn : forall k, datetime.days_in_month (datetime.year d) (datetime.month d)
                 < datetime.day d + k ->
               datetime.valid_date (datetime.year d) (datetime.month d) (datetime.day d + k)
               = false).
  { intros k Hk. unfold datetime.valid_date.
    rewrite (proj2 (Z.leb_gt _ _) Hk). now rewrite !andb_false_r. }
  assert (Hday : datetime.day d
                 <= datetime.days_in_month (datetime.year d) (datetime.month d)).
  { unfold datetime.valid_date in V. rewrite !andb_true_iff, !Z.leb_le in V. lia. }
  unfold days_to_weekday in Hout.
  destruct (datetime.weekday d =? 5) eqn:E5; [apply Z.eqb_eq in E5 |].
  - rewrite adjust_weekend_step, E5. change (4 <? 5) with true. cbv iota.
    destruct (Z_le_gt_dec (datetime.day d + 1)
                (datetime.days_in_month (datetime.year d) (datetime.month d))) as [Hle | Hgt].
    + rewrite replace_day_ok by (apply Vd; lia). unfold res_bind.
      pose proof (weekday_with_day d 1) as W1. rewrite E5 in W1.
      rewrite adjust_weekend_step, W1. change (4 <? (5 + 1) mod 7) with true. cbv iota.
      destruct (replace_day_raises (with_day d (datetime.day d + 1))
                  (datetime.day (with_day d (datetime.day d + 1)) + 1)) as [msg ->].
      { simpl. replace (datetime.day d + 1 + 1) with (datetime.day d + 2) by lia.
        apply Vn. lia. }
      now exists msg.
    + destruct (replace_day_raises d (datetime.day d + 1)) as [msg ->];
        [apply Vn; lia | now exists msg].
  - destruct (datetime.weekday d =? 6) eqn:E6; [apply Z.eqb_eq in E6 | lia].
    rewrite adjust_weekend_step, E6. change (4 <? 6) with true. cbv iota.
    destruct (replace_day_raises d (datetime.day d + 1)) as [msg ->];
      [apply Vn; lia | now exists msg].
Qed.

(** C3 at a birthday on Saturday 31 August 2024, asked for on the Tuesday
    before: the shift asks for 32 August, and the query ends in a
    [ValueError] where 02.09.2024 was to be reported. The same happens on
    Saturday 30 November 2024, and at midnight as well. *)
Theorem weekend_shift_fails_at_month_end :
  exists r r',
    make_record "john" [] (Some "31.08.1990") = Some r
    /\ make_record "mary" [] (Some "30.11.1985") = Some r'
    /\ datetime.weekday (datetime.mk 2024 8 31 0 0 0 0) = 5
    /\ AddressBook.get_upcoming_birthdays (book_of [r]) (datetime.mk 2024 8 27 10 0 0 0)
       = Raise (ValueError "day is out of range for month")
    /\ AddressBook.get_upcoming_birthdays (book_of [r]) (datetime.mk 2024 8 27 0 0 0 0)
       = Raise (ValueError "day is out of range for month")
    /\ AddressBook.get_upcoming_birthdays (book_of [r']) (datetime.mk 2024 11 26 10 0 0 0)
       = Raise (ValueError "day is out of range for month")
    /\ fst (birthdays (datetime.mk 2024 8 27 10 0 0 0) (book_of [r]))
       = PyStr "day is out of range for month".
Proof. do 2 eexists. repeat (split; [reflexivity |]). reflexivity. Qed.

(** A weekend inside the month is shifted, also past the seventh day. *)
Lemma weekend_shift_inside_month :
  exists r,
    make_record "john" [] (Some "15.06.1990") = Some r
    /\ AddressBook.get_upcoming_birthdays (book_of [r]) (datetime.mk 2024 6 12 10 0 0 0)
       = Ok [AddressBook.mk_upcoming "john" "17.06.2024"].
Proof. eexists. split; reflexivity. Qed.

(** ** Calendar arithmetic *)

Lemma valid_date_iff (y m d : Z) :
  datetime.valid_date y m d = true <->
  1 <= y <= 9999 /\ 1 <= m <= 12 /\ 1 <= d <= datetime.days_in_month y m.
Proof.
  unfold datetime.valid_date, datetime.MINYEAR, datetime.MAXYEAR.
  rewrite !andb_true_iff, !Z.leb_le. tauto.
Qed.

Lemma valid_iff (dt : datetime.t) :
  datetime.valid dt = true <->
  datetime.valid_date (datetime.year dt) (datetime.month dt) (datetime.day dt) = true
  /\ 0 <= datetime.hour dt < 24 /\ 0 <= datetime.minute dt < 60
  /\ 0 <= datetime.second dt < 60 /\ 0 <= datetime.microsecond dt < 1000000.
Proof.
  unfold datetime.valid, datetime.valid_time.
  rewrite !andb_true_iff, !Z.leb_le, !Z.ltb_lt. tauto.
Qed.

Lemma time_of_day_range (dt : datetime.t) :
  datetime.valid dt = true -> 0 <= datetime.time_of_day dt < datetime.US_PER_DAY.
Proof.
  intros H. apply valid_iff in H. unfold datetime.time_of_day, datetime.US_PER_DAY. lia.
Qed.

Lemma days_in_month_range (y m : Z) : 28 <= datetime.days_in_month y m <= 31.
Proof.
  unfold datetime.days_in_month.
  repeat match goal with |- context [if ?b then _ else _] => destruct b end; lia.
Qed.

Lemma month_cases (m : Z) :
  1 <= m <= 12 ->
  m = 1 \/ m = 2 \/ m = 3 \/ m = 4 \/ m = 5 \/ m = 6
  \/ m = 7 \/ m = 8 \/ m = 9 \/ m = 10 \/ m = 11 \/ m = 12.
Proof. lia. Qed.

(** The first of the next month comes right after the last of this one. *)
Lemma days_before_next_month (y m : Z) :
  1 <= m < 12 ->
  datetime.days_before_month y (m + 1)
  = datetime.days_before_month y m + datetime.days_in_month y m.
Proof.
  intros H. assert (Hm : 1 <= m <= 12) by lia.
  unfold datetime.days_before_month, datetime.days_in_month.
  destruct (datetime.is_leap y);
    destruct (month_cases m Hm) as [-> | [-> | [-> | [-> | [-> | [-> | [-> | [-> | [-> | [-> | [-> | ->]]]]]]]]]]];
    try lia; reflexivity.
Qed.

Lemma days_before_month_mono (y m1 m2 : Z) :
  1 <= m1 -> m1 < m2 -> m2 <= 12 ->
  datetime.days_before_month y m1 + datetime.days_in_month y m1
  <= datetime.days_before_month y m2.
Proof.
  intros H1 H12 H2.
  assert (G : forall k : nat, (Z.of_nat k < 12 - m1) ->
            datetime.days_before_month y m1 + datetime.days_in_month y m1
            <= datetime.days_before_month y (m1 + 1 + Z.of_nat k)).
  { induction k as [| k IH]; intros Hk.
    - rewrite Z.add_0_r, days_before_next_month by lia. lia.
    - replace (m1 + 1 + Z.of_nat (S k)) with ((m1 + 1 + Z.of_nat k) + 1) by lia.
      rewrite days_before_next_month by lia.
      pose proof (days_in_month_range y (m1 + 1 + Z.of_nat k)).
      specialize (IH ltac:(lia)). lia. }
  specialize (G (Z.to_nat (m2 - m1 - 1)) ltac:(lia)).
  replace (m1 + 1 + Z.of_nat (Z.to_nat (m2 - m1 - 1))) with m2 in G by lia.
  exact G.
Qed.

(** In one year, the order of the dates is the order of their ordinals. *)
Lemma ymd2ord_lt_same_year (y m1 d1 m2 d2 : Z) :
  datetime.valid_date y m1 d1 = true -> datetime.valid_date y m2 d2 = true ->
  (m1 < m2 \/ (m1 = m2 /\ d1 <= d2)) ->
  datetime.ymd2ord y m1 d1 <= datetime.ymd2ord y m2 d2.
Proof.
  intros V1 V2 H. apply valid_date_iff in V1, V2. unfold datetime.ymd2ord.
  destruct H as [H | [-> H]]; [| lia].
  pose proof (days_before_month_mono y m1 m2 ltac:(lia) H ltac:(lia)). lia.
Qed.

Lemma leap_year_step (y : Z) :
  datetime.days_before_year (y + 1)
  = datetime.days_before_year y + 365 + (if datetime.is_leap y then 1 else 0).
Proof.
  unfold datetime.days_before_year, datetime.is_leap.
  replace (y + 1 - 1) with y by lia.
  destruct (Z.eqb_spec (y mod 4) 0) as [H4 | H4];
    destruct (Z.eqb_spec (y mod 100) 0) as [H100 | H100];
    destruct (Z.eqb_spec (y mod 400) 0) as [H400 | H400]; simpl;
    Z.to_euclidean_division_equations; lia.
Qed.

(** The same month and day a year later lies 365 or 366 days on. *)
Lemma ymd2ord_next_year (y m d : Z) :
  365 <= datetime.ymd2ord (y + 1) m d - datetime.ymd2ord y m d <= 366.
Proof.
  unfold datetime.ymd2ord, datetime.days_before_month. rewrite leap_year_step.
  assert (L : datetime.is_leap y && datetime.is_leap (y + 1) = false).
  { unfold datetime.is_leap.
    destruct (Z.eqb_spec (y mod 4) 0) as [H4 | H4]; simpl; [| reflexivity].
    destruct (Z.eqb_spec ((y + 1) mod 4) 0) as [H4' | H4']; simpl;
      [| now rewrite andb_false_r].
    exfalso. Z.to_euclidean_division_equations. lia. }
  destruct (2 <? m), (datetime.is_leap y), (datetime.is_leap (y + 1));
    simpl in *; try discriminate; lia.
Qed.

Lemma ymd2ord_lt_strict (y m1 d1 m2 d2 : Z) :
  datetime.valid_date y m1 d1 = true -> datetime.valid_date y m2 d2 = true ->
  (m1 < m2 \/ (m1 = m2 /\ d1 < d2)) ->
  datetime.ymd2ord y m1 d1 < datetime.ymd2ord y m2 d2.
Proof.
  intros V1 V2 H. apply valid_date_iff in V1, V2. unfold datetime.ymd2ord.
  destruct H as [H | [-> H]]; [| lia].
  pose proof (days_before_month_mono y m1 m2 ltac:(lia) H ltac:(lia)). lia.
Qed.

Lemma replace_year_inv (d d' : datetime.t) (y : Z) :
  datetime.replace_year d y = Ok d' ->
  d' = datetime.mk y (datetime.month d) (datetime.day d) (datetime.hour d)
         (datetime.minute d) (datetime.second d) (datetime.microsecond d)
  /\ datetime.valid_date y (datetime.month d) (datetime.day d) = true.
Proof.
  unfold datetime.replace_year.
  destruct (datetime.valid_date y (datetime.month d) (datetime.day d)) eqn:V.
  - rewrite (proj2 (check_date_fields_ok _ _ _) V). simpl. intros E.
    now injection E as <-.
  - destruct (check_date_fields_raises _ _ _ V) as [msg ->]. discriminate.
Qed.

Lemma lt_unfold (a b : datetime.t) :
  datetime.lt a b =
  (datetime.year a <? datetime.year b)
  || (datetime.year a =? datetime.year b)
     && ((datetime.month a <? datetime.month b)
         || (datetime.month a =? datetime.month b)
            && ((datetime.day a <? datetime.day b)
                || (datetime.day a =? datetime.day b)
                   && ((datetime.hour a <? datetime.hour b)
                       || (datetime.hour a =? datetime.hour b)
                          && ((datetime.minute a <? datetime.minute b)
                              || (datetime.minute a =? datetime.minute b)
                                 && ((datetime.second a <? datetime.second b)
                                     || (datetime.second a =? datetime.second b)
                                        && (datetime.microsecond a
                                            <? datetime.microsecond b)))))).
Proof.
  unfold datetime.lt, datetime.fields. cbn [datetime.lex_lt].
  now rewrite andb_false_r, orb_false_r.
Qed.

(** A midnight is before every later moment of its day. *)
Lemma midnight_lt_same_day (a b : datetime.t) :
  at_midnight a -> datetime.valid b = true ->
  datetime.year a = datetime.year b -> datetime.month a = datetime.month b ->
  datetime.day a = datetime.day b ->
  datetime.lt a b = negb (datetime.time_of_day b =? 0).
Proof.
  intros (Hh & Hm & Hs & Hu) Vb Ey Em Ed. apply valid_iff in Vb.
  rewrite lt_unfold, Ey, Em, Ed, Hh, Hm, Hs, Hu, !Z.ltb_irrefl, !Z.eqb_refl.
  cbn [orb andb].
  assert (T : datetime.time_of_day b = 0 <->
              datetime.hour b = 0 /\ datetime.minute b = 0
              /\ datetime.second b = 0 /\ datetime.microsecond b = 0)
    by (unfold datetime.time_of_day; lia).
  destruct (Z.eqb_spec (datetime.time_of_day b) 0) as [E | E]; cbn [negb].
  - apply T in E as (-> & -> & -> & ->). reflexivity.
  - destruct (Z.ltb_spec 0 (datetime.hour b)) as [| H1]; [reflexivity |].
    destruct (Z.eqb_spec 0 (datetime.hour b)) as [H1' |]; [| lia].
    destruct (Z.ltb_spec 0 (datetime.minute b)) as [| H2]; [reflexivity |].
    destruct (Z.eqb_spec 0 (datetime.minute b)) as [H2' |]; [| lia].
    destruct (Z.ltb_spec 0 (datetime.second b)) as [| H3]; [reflexivity |].
    destruct (Z.eqb_spec 0 (datetime.second b)) as [H3' |]; [| lia].
    destruct (Z.ltb_spec 0 (datetime.microsecond b)) as [| H4]; [reflexivity |].
    exfalso. apply E, T. lia.
Qed.

(** In one year, a datetime on a later date is not before one on an earlier
    date. *)
Lemma not_lt_later_date (a b : datetime.t) :
  datetime.valid_date (datetime.year a) (datetime.month a) (datetime.day a) = true ->
  datetime.valid_date (datetime.year b) (datetime.month b) (datetime.day b) = true ->
  datetime.year a = datetime.year b ->
  datetime.toordinal b < datetime.toordinal a ->
  datetime.lt a b = false.
Proof.
  intros Va Vb Ey Ho. destruct (datetime.lt a b) eqn:L; [exfalso | reflexivity].
  rewrite lt_unfold, Ey, Z.ltb_irrefl, Z.eqb_refl in L. simpl in L.
  unfold datetime.toordinal in Ho. rewrite Ey in Ho, Va.
  apply orb_true_iff in L as [L | L].
  - apply Z.ltb_lt in L.
    pose proof (ymd2ord_lt_strict _ _ _ _ _ Va Vb (or_introl L)). lia.
  - apply andb_true_iff in L as [Em L]. apply Z.eqb_eq in Em.
    apply orb_true_iff in L as [L | L].
    + apply Z.ltb_lt in L.
      pose proof (ymd2ord_lt_strict _ _ _ _ _ Va Vb (or_intror (conj Em L))). lia.
    + apply andb_true_iff in L as [Ed _]. apply Z.eqb_eq in Ed.
      rewrite Em, Ed in Ho. lia.
Qed.

Lemma sub_days_midnight (a b : datetime.t) :
  at_midnight a -> datetime.valid b = true ->
  datetime.sub_days a b
  = datetime.toordinal a - datetime.toordinal b
    - (if datetime.time_of_day b =? 0 then 0 else 1).
Proof.
  intros (Hh & Hm & Hs & Hu) Vb. pose proof (time_of_day_range b Vb) as Hr.
  unfold datetime.sub_days.
  assert (Ta : datetime.time_of_day a = 0)
    by (unfold datetime.time_of_day; rewrite Hh, Hm, Hs, Hu; reflexivity).
  rewrite Ta. unfold datetime.US_PER_DAY in *.
  destruct (Z.eqb_spec (datetime.time_of_day b) 0) as [E | E].
  - rewrite E. Z.to_euclidean_division_equations. lia.
  - Z.to_euclidean_division_equations. lia.
Qed.

(** ** The query, record by record *)

(** A date that [Birthday] accepted is a valid date at midnight. *)
Lemma Birthday_init_midnight (s : string) (b : Birthday.t) :
  Birthday.init s = Ok b ->
  at_midnight (Birthday.value b)
  /\ datetime.valid (Birthday.value b) = true.
Proof.
  unfold Birthday.init, datetime.strptime.
  destruct (datetime.regex_matches s) as [| [[[d m] y] rest] ms]; [discriminate |].
  destruct rest; [| discriminate].
  destruct (datetime.valid_date y m d) eqn:V.
  - rewrite (proj2 (check_date_fields_ok _ _ _) V). simpl. intros E. injection E as <-.
    simpl. split; [repeat split |]. unfold datetime.valid. simpl. now rewrite V.
  - destruct (check_date_fields_raises _ _ _ V) as [msg ->]. discriminate.
Qed.

(** What the query returns is made of the entries of the records, in the
    order of the book; a record whose round gives no entry is not in it. *)
Lemma upcoming_loop_entries (today : datetime.t) (records : list Record.t) :
  forall acc l,
    AddressBook.upcoming_loop today records acc = Ok l ->
    exists results,
      Forall2 (fun r e => AddressBook.upcoming_of today r = Ok e) records results
      /\ l = (acc ++ entries results)%list.
Proof.
  induction records as [| r records IH]; intros acc l H; simpl in H.
  - injection H as <-. exists []. split; [constructor | now rewrite app_nil_r].
  - destruct (AddressBook.upcoming_of today r) as [e |] eqn:E; [| discriminate].
    simpl in H. apply IH in H as (results & HF & ->).
    exists (e :: results). split; [now constructor |].
    unfold entries. simpl. destruct e; [now rewrite <- app_assoc | reflexivity].
Qed.

Lemma get_upcoming_birthdays_one (r : Record.t) (today : datetime.t) :
  AddressBook.get_upcoming_birthdays (book_of [r]) today
  = (e <- AddressBook.upcoming_of today r ;;
     Ok (match e with Some x => [x] | None => [] end))%res.
Proof.
  unfold AddressBook.get_upcoming_birthdays, book_of. simpl.
  now destruct (AddressBook.upcoming_of today r) as [[x |] |].
Qed.

(** The test of the window, for a birthday whose date in the year of [today]
    is not before the date of [today]: at midnight sharp the dates 0 to 7
    days after today pass, at any later time of day the dates 1 to 8 days
    after. *)
Lemma upcoming_of_this_year (today : datetime.t) (record : Record.t)
  (b : Birthday.t) (this_year : datetime.t) :
  datetime.valid today = true ->
  Record.birthday record = Some b ->
  at_midnight (Birthday.value b) ->
  datetime.replace_year (Birthday.value b) (datetime.year today) = Ok this_year ->
  (if datetime.time_of_day today =? 0 then 0 else 1)
    <= datetime.toordinal this_year - datetime.toordinal today ->
  AddressBook.upcoming_of today record =
  if datetime.toordinal this_year - datetime.toordinal today
     <=? (if datetime.time_of_day today =? 0 then 7 else 8)
  then reported record this_year
  else Ok None.
Proof.
  intros Vt Hb Hmid Hr Hd. unfold AddressBook.upcoming_of. rewrite Hb, Hr.
  cbn [res_bind].
  apply replace_year_inv in Hr as [Ety Vy].
  assert (Mty : at_midnight this_year) by (subst this_year; exact Hmid).
  assert (Yty : datetime.year this_year = datetime.year today) by now subst this_year.
  assert (Vty : datetime.valid_date (datetime.year this_year) (datetime.month this_year)
                  (datetime.day this_year) = true) by now subst this_year.
  pose proof (proj1 (valid_iff today) Vt) as [Vtd _].
  assert (L : datetime.lt this_year today = false).
  { destruct (Z.eq_dec (datetime.toordinal this_year) (datetime.toordinal today)) as [E | N].
    - destruct (datetime.time_of_day today =? 0) eqn:T0; [| lia].
      destruct (datetime.lt this_year today) eqn:L; [exfalso | reflexivity].
      pose proof L as L'.
      rewrite lt_unfold, Yty, Z.ltb_irrefl, Z.eqb_refl in L'. cbn [orb andb] in L'.
      unfold datetime.toordinal in E. rewrite Yty in E, Vty.
      apply orb_true_iff in L' as [L' | L'].
      + apply Z.ltb_lt in L'.
        pose proof (ymd2ord_lt_strict _ _ _ _ _ Vty Vtd (or_introl L')). lia.
      + apply andb_true_iff in L' as [Em L']. apply Z.eqb_eq in Em.
        apply orb_true_iff in L' as [L' | L'].
        * apply Z.ltb_lt in L'.
          pose proof (ymd2ord_lt_strict _ _ _ _ _ Vty Vtd (or_intror (conj Em L'))). lia.
        * apply andb_true_iff in L' as [Ed _]. apply Z.eqb_eq in Ed.
          rewrite (midnight_lt_same_day this_year today Mty Vt Yty Em Ed), T0 in L.
          discriminate.
    - apply not_lt_later_date; try assumption.
      destruct (datetime.time_of_day today =? 0); lia. }
  rewrite L. cbv beta iota zeta delta [res_bind].
  rewrite (sub_days_midnight this_year today Mty Vt).
  set (delta := datetime.toordinal this_year - datetime.toordinal today) in *.
  unfold reported. cbv beta iota zeta delta [res_bind].
  destruct (datetime.time_of_day today =? 0).
  - rewrite Z.sub_0_r, (proj2 (Z.leb_le 0 delta)) by lia. reflexivity.
  - rewrite (proj2 (Z.leb_le 0 (delta - 1))) by lia. cbn [andb].
    destruct (Z.leb_spec (delta - 1) 7), (Z.leb_spec delta 8); try lia; reflexivity.
Qed.

(** A birthday on the date of [today] is never reported once the clock is
    past midnight: it is moved to the next year, which is at least 364 days
    away, or has no such day. *)
Lemma upcoming_of_today (today : datetime.t) (record : Record.t) (b : Birthday.t) :
  datetime.valid today = true ->
  datetime.time_of_day today <> 0 ->
  Record.birthday record = Some b ->
  at_midnight (Birthday.value b) ->
  datetime.month (Birthday.value b) = datetime.month today ->
  datetime.day (Birthday.value b) = datetime.day today ->
  AddressBook.upcoming_of today record = Ok None
  \/ exists msg, AddressBook.upcoming_of today record = Raise (ValueError msg).
Proof.
  intros Vt Ht Hb Hmid Em Ed. pose proof (time_of_day_range today Vt) as Hr.
  pose proof (proj1 (valid_iff today) Vt) as [Vtd _].
  unfold AddressBook.upcoming_of. rewrite Hb.
  set (bd := Birthday.value b) in *.
  assert (R1 : datetime.replace_year bd (datetime.year today)
               = Ok (datetime.mk (datetime.year today) (datetime.month bd) (datetime.day bd)
                       (datetime.hour bd) (datetime.minute bd) (datetime.second bd)
                       (datetime.microsecond bd))).
  { unfold datetime.replace_year.
    rewrite (proj2 (check_date_fields_ok _ _ _)) by (rewrite Em, Ed; exact Vtd).
    reflexivity. }
  rewrite R1. cbn [res_bind].
  rewrite (midnight_lt_same_day _ today) by (try exact Hmid; try exact Vt; simpl; congruence).
  rewrite (proj2 (Z.eqb_neq _ _) Ht). cbn [negb]. cbv iota.
  destruct (datetime.replace_year bd (datetime.year today + 1)) as [next |] eqn:R2.
  - left. cbv beta iota zeta delta [res_bind]. apply replace_year_inv in R2 as [-> _].
    rewrite sub_days_midnight by (try exact Hmid; exact Vt).
    rewrite (proj2 (Z.eqb_neq _ _) Ht).
    pose proof (ymd2ord_next_year (datetime.year today) (datetime.month bd) (datetime.day bd))
      as Hy.
    unfold datetime.toordinal. simpl. rewrite <- Em, <- Ed.
    match goal with
    | |- (if ?c then _ else _) = _ => replace c with false; [reflexivity |]
    end.
    symmetry. apply andb_false_iff. right. apply Z.leb_gt. lia.
  - right. unfold datetime.replace_year in R2.
    destruct (datetime.valid_date (datetime.year today + 1) (datetime.month bd)
                (datetime.day bd)) eqn:V.
    + rewrite (proj2 (check_date_fields_ok _ _ _) V) in R2. discriminate.
    + destruct (check_date_fields_raises _ _ _ V) as [msg Hmsg].
      rewrite Hmsg in R2. simpl in R2. injection R2 as <-. now exists msg.
Qed.

(** Seven days after the date of [today] passes the test at every time of
    day; so does eight days after, unless the clock stands at midnight
    sharp; and the date of [today] itself passes at midnight sharp only. *)
Lemma window_by_dates (today : datetime.t) (record : Record.t)
  (b : Birthday.t) (this_year : datetime.t) :
  datetime.valid today = true ->
  Record.birthday record = Some b ->
  at_midnight (Birthday.value b) ->
  datetime.replace_year (Birthday.value b) (datetime.year today) = Ok this_year ->
  (datetime.toordinal this_year - datetime.toordinal today = 7 ->
   AddressBook.upcoming_of today record = reported record this_year)
  /\ (datetime.toordinal this_year - datetime.toordinal today = 8 ->
      AddressBook.upcoming_of today record =
      if datetime.time_of_day today =? 0 then Ok None else reported record this_year)
  /\ (datetime.toordinal this_year - datetime.toordinal today = 0 ->
      datetime.time_of_day today = 0 ->
      AddressBook.upcoming_of today record = reported record this_year).
Proof.
  intros Vt Hb Hmid Hr.
  pose proof (upcoming_of_this_year today record b this_year Vt Hb Hmid Hr) as G.
  split; [| split].
  - intros E. rewrite G; rewrite E; destruct (datetime.time_of_day today =? 0);
      try reflexivity; lia.
  - intros E. rewrite G; rewrite E; destruct (datetime.time_of_day today =? 0);
      try reflexivity; lia.
  - intros E T. rewrite G; rewrite E, T; [reflexivity | simpl; lia].
Qed.

(** A date that is no weekend is reported as it is. *)
Lemma reported_weekday (record : Record.t) (d : datetime.t) :
  datetime.weekday d <= 4 ->
  reported record d
  = Ok (Some (AddressBook.mk_upcoming (Name.value (Record.name record))
                (datetime.strftime d))).
Proof.
  intros H. unfold reported, AddressBook.adjust_weekend.
  now rewrite adjust_loop_weekday.
Qed.

(** ** The seven-day window, at a concrete moment *)

(** C1 at Wednesday 12 June 2024, 10 o'clock, and a birthday on 12 June:
    this year's date, which is midnight, lies before [today], so the
    birthday is moved to 2025 and left out. Only at midnight sharp is it
    reported. *)
Theorem birthday_today_is_left_out :
  exists r,
    make_record "john" [] (Some "12.06.1990") = Some r
    /\ AddressBook.get_upcoming_birthdays (book_of [r]) (datetime.mk 2024 6 12 10 0 0 0)
       = Ok []
    /\ AddressBook.get_upcoming_birthdays (book_of [r]) (datetime.mk 2024 6 12 0 0 0 1)
       = Ok []
    /\ AddressBook.get_upcoming_birthdays (book_of [r]) (datetime.mk 2024 6 12 0 0 0 0)
       = Ok [AddressBook.mk_upcoming "john" "12.06.2024"].
Proof. eexists. repeat (split; [reflexivity |]). reflexivity. Qed.

(** C2 at the same moment: a birthday on 20 June, eight days after 12 June,
    is seven days and fourteen hours away, which the [days] of the difference
    round down to 7: it is reported. At midnight sharp it is not. *)
Theorem birthday_in_eight_days_is_reported :
  exists r,
    make_record "john" [] (Some "20.06.1990") = Some r
    /\ datetime.toordinal (datetime.mk 2024 6 20 0 0 0 0)
       - datetime.toordinal (datetime.mk 2024 6 12 10 0 0 0) = 8
    /\ datetime.sub_days (datetime.mk 2024 6 20 0 0 0 0) (datetime.mk 2024 6 12 10 0 0 0) = 7
    /\ AddressBook.get_upcoming_birthdays (book_of [r]) (datetime.mk 2024 6 12 10 0 0 0)
       = Ok [AddressBook.mk_upcoming "john" "20.06.2024"]
    /\ AddressBook.get_upcoming_birthdays (book_of [r]) (datetime.mk 2024 6 12 0 0 0 0)
       = Ok [].
Proof. eexists. repeat (split; [reflexivity |]). reflexivity. Qed.

(** ** Persistence *)

Lemma load_data_no_file {blob : Type} (pickle_load : blob -> option AddressBook.t)
  (filename : string) (fs : filesystem blob) :
  fs filename = None -> load_data pickle_load filename fs = Some AddressBook.empty.
Proof. intros H. unfold load_data. now rewrite H. Qed.

Lemma save_data_other_file {blob : Type} (pickle_dump : AddressBook.t -> blob)
  (book : AddressBook.t) (filename other : string) (fs : filesystem blob) :
  other <> filename -> save_data pickle_dump book filename fs other = fs other.
Proof.
  intros H. unfold save_data, write_file.
  now rewrite (proj2 (String.eqb_neq other filename) H).
Qed.

Section Roundtrip.

Variable blob : Type.
Variable pickle_dump : AddressBook.t -> blob.
Variable pickle_load : blob -> option AddressBook.t.

(** What [pickle] promises for the objects of this program: loading a dump
    gives back an equal object graph. *)
Hypothesis pickle_roundtrip : forall book, pickle_load (pickle_dump book) = Some book.

(** C10: loading the file that [save_data] wrote gives the book that was
    saved, with its names, phone lists and birthdays, whatever the file system
    held before; the default file name is the same on both sides. *)
Theorem save_then_load (book : AddressBook.t) (filename : string) (fs : filesystem blob) :
  load_data pickle_load filename (save_data pickle_dump book filename fs) = Some book
  /\ load_data pickle_load default_filename
       (save_data pickle_dump book default_filename fs) = Some book.
Proof.
  unfold load_data, save_data, write_file.
  rewrite !String.eqb_refl. split; apply pickle_roundtrip.
Qed.

End Roundtrip.

Lemma save_then_load_witness :
  let book := AddressBook.add_record AddressBook.empty
                (Record.mk (Name.mk "john") [Phone.mk "1234567890"] None) in
  load_data (fun b : AddressBook.t => Some b) "addressbook.pkl"
    (save_data (fun b : AddressBook.t => b) book "addressbook.pkl" (fun _ => None))
  = Some book.
Proof.
  exact (proj1 (save_then_load AddressBook.t (fun b => b) (fun b => Some b)
                  (fun b => eq_refl) _ "addressbook.pkl" (fun _ => None))).
Defined.

(** * Further properties *)

(** ** Birthday: parsing and printing *)

Lemma digit_isdigit (n : Z) : Str.char_isdigit (datetime.digit n) = true.
Proof.
  unfold datetime.digit. apply in_range_spec.
  pose proof (Z.mod_pos_bound n 10 ltac:(lia)).
  rewrite code_of_ascii_of_N; lia.
Qed.

Lemma digit_value_digit (n : Z) : datetime.digit_value (datetime.digit n) = n mod 10.
Proof.
  unfold datetime.digit_value, datetime.digit.
  pose proof (Z.mod_pos_bound n 10 ltac:(lia)).
  rewrite code_of_ascii_of_N; lia.
Qed.

Lemma day_cases (d : Z) :
  1 <= d <= 31 ->
  d = 1 \/ d = 2 \/ d = 3 \/ d = 4 \/ d = 5 \/ d = 6 \/ d = 7 \/ d = 8 \/ d = 9
  \/ d = 10 \/ d = 11 \/ d = 12 \/ d = 13 \/ d = 14 \/ d = 15 \/ d = 16 \/ d = 17
  \/ d = 18 \/ d = 19 \/ d = 20 \/ d = 21 \/ d = 22 \/ d = 23 \/ d = 24 \/ d = 25
  \/ d = 26 \/ d = 27 \/ d = 28 \/ d = 29 \/ d = 30 \/ d = 31.
Proof. lia. Qed.

(** The day group reads back the two digits [strftime] wrote, and nothing
    else of it goes on to the dot. *)
Lemma group_d_pad2 {A : Type} (d : Z) (rest : string) (k : Z -> string -> list A) :
  1 <= d <= 31 ->
  flat_map (fun '(d', s1) => flat_map (k d') (datetime.literal_dot s1))
    (datetime.group_d (datetime.pad2 d ++ String "." rest))
  = k d rest.
Proof.
  intros H.
  destruct (day_cases d H) as
    [-> | [-> | [-> | [-> | [-> | [-> | [-> | [-> | [-> | [-> | [-> | [-> | [-> | [-> | [-> | [->
    | [-> | [-> | [-> | [-> | [-> | [-> | [-> | [-> | [-> | [-> | [-> | [-> | [-> | [-> | ->
    ]]]]]]]]]]]]]]]]]]]]]]]]]]]]]];
    cbn; rewrite ?app_nil_r; reflexivity.
Qed.

Lemma group_m_pad2 {A : Type} (m : Z) (rest : string) (k : Z -> string -> list A) :
  1 <= m <= 12 ->
  flat_map (fun '(m', s3) => flat_map (k m') (datetime.literal_dot s3))
    (datetime.group_m (datetime.pad2 m ++ String "." rest))
  = k m rest.
Proof.
  intros H.
  destruct (month_cases m H) as
    [-> | [-> | [-> | [-> | [-> | [-> | [-> | [-> | [-> | [-> | [-> | ->]]]]]]]]]]];
    cbn; rewrite ?app_nil_r; reflexivity.
Qed.

Lemma group_Y_pad4 (y : Z) :
  0 <= y <= 9999 -> datetime.group_Y (datetime.pad4 y) = [(y, "")].
Proof.
  intros H. unfold datetime.pad4, datetime.pad2, datetime.group_Y.
  rewrite !digit_isdigit, !digit_value_digit. cbn [andb].
  f_equal. f_equal. Z.to_euclidean_division_equations. lia.
Qed.

(** Printing a date and parsing the text gives the date back. *)
Lemma strptime_strftime (d : datetime.t) :
  datetime.valid d = true -> at_midnight d -> 1000 <= datetime.year d ->
  datetime.strptime (datetime.strftime d) = Ok d.
Proof.
  intros V (Hh & Hm & Hs & Hu) Hy. apply valid_iff in V as [Vd _].
  pose proof (proj1 (valid_date_iff _ _ _) Vd) as (Y & M & D).
  pose proof (days_in_month_range (datetime.year d) (datetime.month d)).
  unfold datetime.strptime, datetime.regex_matches, datetime.strftime.
  change (datetime.pad2 (datetime.day d) ++ "." ++ datetime.pad2 (datetime.month d)
          ++ "." ++ datetime.pad4 (datetime.year d))
    with (datetime.pad2 (datetime.day d)
          ++ String "." (datetime.pad2 (datetime.month d)
                         ++ String "." (datetime.pad4 (datetime.year d)))).
  rewrite (group_d_pad2 (datetime.day d)) by lia.
  rewrite (group_m_pad2 (datetime.month d)) by lia.
  rewrite group_Y_pad4 by lia. cbn [List.map].
  rewrite (proj2 (check_date_fields_ok _ _ _) Vd). cbn [res_bind].
  destruct d; simpl in *; subst; reflexivity.
Qed.

(** X1. A birthday that [Birthday] accepted, printed as [%d.%m.%Y] and
    handed to [Birthday] again, is accepted and gives the same date; so the
    text that [add_birthday] re-parses never fails (for a year of four
    digits). *)
Theorem Birthday_print_parse (s : string) (b : Birthday.t) :
  Birthday.init s = Ok b ->
  1000 <= datetime.year (Birthday.value b) ->
  Birthday.init (datetime.strftime (Birthday.value b)) = Ok b.
Proof.
  intros H Hy. apply Birthday_init_midnight in H as [Hm Hv].
  unfold Birthday.init. rewrite strptime_strftime by assumption. now destruct b.
Qed.

Lemma Birthday_print_parse_witness :
  Birthday.init "1.6.1990" = Ok (Birthday.mk (datetime.mk 1990 6 1 0 0 0 0))
  /\ Birthday.init (datetime.strftime (datetime.mk 1990 6 1 0 0 0 0))
     = Ok (Birthday.mk (datetime.mk 1990 6 1 0 0 0 0)).
Proof.
  split; [reflexivity |].
  apply (Birthday_print_parse "1.6.1990" (Birthday.mk (datetime.mk 1990 6 1 0 0 0 0)));
    [reflexivity | simpl; lia].
Defined.

(** X2. [Birthday] either accepts, and then holds a date of the calendar
    (year 1 to 9999, a month, a day the month has) at midnight, or raises
    [ValueError] with the one message 'Invalid date format. Use
    DD.MM.YYYY', whatever was wrong with the text. *)
Theorem Birthday_init_outcomes (s : string) :
  (exists b, Birthday.init s = Ok b
             /\ at_midnight (Birthday.value b)
             /\ datetime.valid (Birthday.value b) = true)
  \/ Birthday.init s = Raise (ValueError "Invalid date format. Use DD.MM.YYYY").
Proof.
  destruct (Birthday.init s) as [b | e] eqn:E.
  - left. exists b. split; [reflexivity |]. exact (Birthday_init_midnight s b E).
  - right. unfold Birthday.init, datetime.strptime in E.
    destruct (datetime.regex_matches s) as [| [[[d m] y] rest] ms];
      [now injection E as <- |].
    destruct rest; [| now injection E as <-].
    destruct (datetime.valid_date y m d) eqn:V.
    + rewrite (proj2 (check_date_fields_ok _ _ _) V) in E. discriminate.
    + destruct (check_date_fields_raises _ _ _ V) as [msg Hmsg].
      rewrite Hmsg in E. simpl in E. now injection E as <-.
Qed.

(** ** Record: finding, removing and editing phones *)

(** X3. [find_phone] returns the phone asked for exactly when the record
    holds it, and [None] otherwise; it never returns another phone. *)
Theorem find_phone_finds (r : Record.t) (phone : string) :
  (Record.find_phone r phone = Some phone <-> In phone (Record.phone_values r))
  /\ (Record.find_phone r phone = None <-> ~ In phone (Record.phone_values r))
  /\ (forall q, Record.find_phone r phone = Some q -> q = phone).
Proof.
  unfold Record.find_phone, Record.phone_values.
  induction (Record.phones r) as [| p l (I1 & I2 & I3)]; simpl.
  - split; [| split].
    + split; [discriminate | tauto].
    + split; [tauto | reflexivity].
    + discriminate.
  - destruct (String.eqb_spec (Phone.value p) phone) as [E | N].
    + rewrite E. split; [| split].
      * split; [now left | reflexivity].
      * split; [discriminate | intros H; exfalso; apply H; now left].
      * intros q Hq. now injection Hq as <-.
    + split; [| split].
      * rewrite I1. split; [now right | intros [H | H]; [contradiction | exact H]].
      * rewrite I2. split; [intros H [E | Hin]; [contradiction | now apply H] |].
        intros H Hin. apply H. now right.
      * exact I3.
Qed.

(** Induction over a list two entries at a time, as [remove_skipping]
    recurses. *)
Lemma list_pair_ind {A : Type} (P : list A -> Prop) :
  P [] -> (forall x, P [x]) ->
  (forall x y l, P l -> P (y :: l) -> P (x :: y :: l)) ->
  forall l, P l.
Proof.
  intros H0 H1 H2 l.
  assert (G : P l /\ forall x, P (x :: l)).
  { induction l as [| y l [IH1 IH2]]; split; auto. }
  exact (proj1 G).
Qed.

Lemma remove_skipping_others (phone : string) (l : list Phone.t) :
  filter (other_than phone) (List.map Phone.value (remove_skipping phone l))
  = filter (other_than phone) (List.map Phone.value l).
Proof.
  induction l as [| x | x y l IH1 IH2] using list_pair_ind.
  - reflexivity.
  - simpl. unfold other_than.
    destruct (String.eqb (Phone.value x) phone) eqn:E; simpl; [| rewrite E]; reflexivity.
  - change (remove_skipping phone (x :: y :: l))
      with (if String.eqb (Phone.value x) phone
            then y :: remove_skipping phone l
            else x :: remove_skipping phone (y :: l)).
    destruct (String.eqb (Phone.value x) phone) eqn:E.
    + assert (Hx : other_than phone (Phone.value x) = false)
        by (unfold other_than; now rewrite E).
      cbn [List.map filter]. rewrite Hx, IH1. reflexivity.
    + cbn [List.map filter]. cbn [List.map] in IH2. now rewrite IH2.
Qed.

Lemma remove_skipping_length (phone : string) (l : list Phone.t) :
  (List.length (remove_skipping phone l) <= List.length l)%nat
  /\ (In phone (List.map Phone.value l) ->
      (List.length (remove_skipping phone l) < List.length l)%nat).
Proof.
  induction l as [| x | x y l IH1 IH2] using list_pair_ind.
  - simpl. split; [lia | tauto].
  - simpl. destruct (String.eqb_spec (Phone.value x) phone) as [E | N]; simpl.
    + split; [lia | intros _; lia].
    + split; [lia | intros [H | []]; contradiction].
  - change (remove_skipping phone (x :: y :: l))
      with (if String.eqb (Phone.value x) phone
            then y :: remove_skipping phone l
            else x :: remove_skipping phone (y :: l)).
    destruct (String.eqb_spec (Phone.value x) phone) as [E | N].
    + destruct IH1 as [L1 _]. cbn [List.length]. split; [lia | intros _; lia].
    + destruct IH2 as [L2 S2]. cbn [List.length List.map] in *. split; [lia |].
      intros [H | H]; [contradiction |]. specialize (S2 H). lia.
Qed.

(** X4. [remove_phone] never touches a phone other than the one asked for:
    those stay, in their order; the name and the birthday stay; no phone is
    added, and where the record held the phone, it holds fewer phones
    afterwards. *)
Theorem remove_phone_keeps_others (r : Record.t) (phone : string) :
  filter (other_than phone) (Record.phone_values (Record.remove_phone r phone))
  = filter (other_than phone) (Record.phone_values r)
  /\ Record.name (Record.remove_phone r phone) = Record.name r
  /\ Record.birthday (Record.remove_phone r phone) = Record.birthday r
  /\ (List.length (Record.phone_values (Record.remove_phone r phone))
      <= List.length (Record.phone_values r))%nat
  /\ (In phone (Record.phone_values r) ->
      (List.length (Record.phone_values (Record.remove_phone r phone))
       < List.length (Record.phone_values r))%nat).
Proof.
  unfold Record.phone_values. rewrite remove_phone_skipping, !length_map.
  split; [apply remove_skipping_others |]. split; [reflexivity |].
  split; [reflexivity |]. apply remove_skipping_length.
Qed.

Lemma remove_phone_keeps_others_witness :
  (List.length (Record.phone_values
     (Record.remove_phone
        (Record.mk (Name.mk "john") [Phone.mk "1111111111"; Phone.mk "2222222222"] None)
        "1111111111")) < 2)%nat.
Proof.
  apply (proj2 (proj2 (proj2 (proj2 (remove_phone_keeps_others
           (Record.mk (Name.mk "john") [Phone.mk "1111111111"; Phone.mk "2222222222"] None)
           "1111111111"))))).
  simpl. now left.
Defined.

(** X5. On a record that holds the phone at most once, [remove_phone]
    removes exactly that entry and nothing else; on a record that does not
    hold it, the record is left as it was. *)
Theorem remove_phone_of_unique (r : Record.t) (phone : string) :
  (count_occ string_dec (Record.phone_values r) phone <= 1)%nat ->
  Record.phone_values (Record.remove_phone r phone)
  = spec_remove_first phone (Record.phone_values r)
  /\ (~ In phone (Record.phone_values r) -> Record.remove_phone r phone = r).
Proof.
  intros H. split; [now apply remove_phone_single | apply remove_phone_absent].
Qed.

Lemma remove_phone_of_unique_witness :
  Record.phone_values
    (Record.remove_phone
       (Record.mk (Name.mk "john")
          [Phone.mk "1111111111"; Phone.mk "2222222222"; Phone.mk "3333333333"] None)
       "2222222222")
  = ["1111111111"; "3333333333"].
Proof.
  apply (remove_phone_of_unique
           (Record.mk (Name.mk "john")
              [Phone.mk "1111111111"; Phone.mk "2222222222"; Phone.mk "3333333333"] None)
           "2222222222").
  simpl. lia.
Defined.

Lemma remove_skipping_last (phone : string) (l : list Phone.t) :
  ~ In phone (List.map Phone.value l) ->
  remove_skipping phone (l ++ [Phone.mk phone]) = l.
Proof.
  induction l as [| x l IH]; simpl.
  - intros _. now rewrite String.eqb_refl.
  - intros H. destruct (String.eqb_spec (Phone.value x) phone) as [E | N].
    + exfalso. apply H. now left.
    + rewrite IH; [reflexivity |]. intros Hin. apply H. now right.
Qed.

(** X6. Adding a phone the record did not hold puts it at the end of the
    list, and removing it again gives the record back. *)
Theorem add_then_remove_phone (r r' : Record.t) (phone : string) :
  Record.add_phone r phone = Ok r' ->
  ~ In phone (Record.phone_values r) ->
  Record.phone_values r' = (Record.phone_values r ++ [phone])%list
  /\ Record.remove_phone r' phone = r.
Proof.
  unfold Record.add_phone, Phone.init.
  destruct (negb (Str.isdigit phone) || negb (Nat.eqb (String.length phone) 10));
    simpl; [discriminate |].
  intros E H. injection E as <-. split.
  - unfold Record.phone_values. simpl. now rewrite map_app.
  - destruct r as [nm l b]. unfold Record.remove_phone. simpl.
    change (Record.remove_phone_loop (List.length (l ++ [Phone.mk phone])) 0
              (l ++ [Phone.mk phone]) phone)
      with (Record.phones (Record.remove_phone
              (Record.mk nm (l ++ [Phone.mk phone]) b) phone)).
    rewrite remove_phone_skipping. simpl. now rewrite remove_skipping_last.
Qed.

Lemma add_then_remove_phone_witness :
  Record.remove_phone
    (Record.mk (Name.mk "john") [Phone.mk "1111111111"; Phone.mk "2222222222"] None)
    "2222222222"
  = Record.mk (Name.mk "john") [Phone.mk "1111111111"] None.
Proof.
  apply (add_then_remove_phone
           (Record.mk (Name.mk "john") [Phone.mk "1111111111"] None)
           (Record.mk (Name.mk "john") [Phone.mk "1111111111"; Phone.mk "2222222222"] None)
           "2222222222").
  - reflexivity.
  - simpl. intros [H | []]. discriminate.
Defined.

Lemma edit_phone_loop_back (l : list Phone.t) (old_phone new_phone : string) :
  ~ In new_phone (List.map Phone.value l) ->
  Record.edit_phone_loop (Record.edit_phone_loop l old_phone new_phone)
    new_phone old_phone = l.
Proof.
  induction l as [| p l IH]; simpl; [reflexivity |].
  intros H. rewrite IH by (intros Hin; apply H; now right). f_equal.
  destruct (String.eqb_spec (Phone.value p) old_phone) as [E | N]; simpl.
  - rewrite String.eqb_refl. destruct p. simpl in E. now rewrite E.
  - destruct (String.eqb_spec (Phone.value p) new_phone) as [E' | _]; [| reflexivity].
    exfalso. apply H. now left.
Qed.

(** X7. [edit_phone] keeps the number of phones, and an edit to a phone
    the record did not hold yet is undone by the edit back. *)
Theorem edit_phone_back (r : Record.t) (old_phone new_phone : string) :
  List.length (Record.phone_values (Record.edit_phone r old_phone new_phone))
  = List.length (Record.phone_values r)
  /\ (~ In new_phone (Record.phone_values r) ->
      Record.edit_phone (Record.edit_phone r old_phone new_phone) new_phone old_phone = r).
Proof.
  split.
  - unfold Record.phone_values, Record.edit_phone. simpl. rewrite !length_map.
    induction (Record.phones r) as [| p l IH]; simpl; [reflexivity | now rewrite IH].
  - intros H. destruct r as [nm l b]. unfold Record.edit_phone. simpl.
    now rewrite edit_phone_loop_back.
Qed.

Lemma edit_phone_back_witness :
  Record.edit_phone
    (Record.edit_phone
       (Record.mk (Name.mk "john") [Phone.mk "1111111111"; Phone.mk "2222222222"] None)
       "1111111111" "3333333333")
    "3333333333" "1111111111"
  = Record.mk (Name.mk "john") [Phone.mk "1111111111"; Phone.mk "2222222222"] None.
Proof.
  apply (proj2 (edit_phone_back
           (Record.mk (Name.mk "john") [Phone.mk "1111111111"; Phone.mk "2222222222"] None)
           "1111111111" "3333333333")).
  simpl. intros [H | [H | []]]; discriminate.
Defined.

(** ** AddressBook: adding, finding and deleting *)

Lemma dict_get_set_same {V : Type} (d : dict.t V) (k : string) (v : V) :
  dict.get (dict.set d k v) k = Some v.
Proof.
  induction d as [| [k0 v0] d IH]; simpl.
  - now rewrite String.eqb_refl.
  - destruct (String.eqb k0 k) eqn:E; simpl; rewrite E; [reflexivity | exact IH].
Qed.

Lemma dict_get_set_other {V : Type} (d : dict.t V) (k k' : string) (v : V) :
  k' <> k -> dict.get (dict.set d k v) k' = dict.get d k'.
Proof.
  intros N. induction d as [| [k0 v0] d IH]; simpl.
  - now rewrite (proj2 (String.eqb_neq k k')) by congruence.
  - destruct (String.eqb_spec k0 k) as [-> | N0]; simpl.
    + now rewrite (proj2 (String.eqb_neq k k')) by congruence.
    + now rewrite IH.
Qed.

Lemma dict_get_None {V : Type} (d : dict.t V) (k : string) :
  dict.get d k = None <-> ~ In k (dict.keys d).
Proof.
  induction d as [| [k0 v0] d IH]; simpl; [tauto |].
  destruct (String.eqb_spec k0 k) as [-> | N].
  - split; [discriminate | intros H; exfalso; apply H; now left].
  - rewrite IH. tauto.
Qed.

Lemma dict_keys_set {V : Type} (d : dict.t V) (k : string) (v : V) :
  dict.keys (dict.set d k v)
  = match dict.get d k with
    | Some _ => dict.keys d
    | None => (dict.keys d ++ [k])%list
    end.
Proof.
  induction d as [| [k0 v0] d IH]; simpl; [reflexivity |].
  destruct (String.eqb k0 k); simpl; [reflexivity |].
  rewrite IH. now destruct (dict.get d k).
Qed.

Lemma dict_keys_remove {V : Type} (d : dict.t V) (k : string) :
  forall k', In k' (dict.keys (dict.remove d k)) -> In k' (dict.keys d).
Proof.
  induction d as [| [k0 v0] d IH]; simpl; [tauto |].
  destruct (String.eqb k0 k); simpl; [tauto |].
  intros k' [H | H]; [now left | right; now apply IH].
Qed.

Lemma dict_remove_NoDup {V : Type} (d : dict.t V) (k : string) :
  NoDup (dict.keys d) ->
  NoDup (dict.keys (dict.remove d k)) /\ ~ In k (dict.keys (dict.remove d k)).
Proof.
  induction d as [| [k0 v0] d IH]; simpl; intros H.
  - split; [constructor | tauto].
  - inversion H as [| ? ? Hn Hd]; subst.
    destruct (String.eqb_spec k0 k) as [-> | N]; simpl.
    + split; assumption.
    + destruct (IH Hd) as [I1 I2]. split.
      * constructor; [| exact I1]. intros Hin. apply Hn.
        now apply dict_keys_remove in Hin.
      * intros [E | Hin]; [contradiction | contradiction].
Qed.

Lemma dict_set_NoDup {V : Type} (d : dict.t V) (k : string) (v : V) :
  NoDup (dict.keys d) -> NoDup (dict.keys (dict.set d k v)).
Proof.
  intros H. rewrite dict_keys_set. destruct (dict.get d k) eqn:E; [exact H |].
  apply dict_get_None in E. apply NoDup_app; [exact H | repeat constructor; tauto |].
  intros x Hx [<- | []]. contradiction.
Qed.

Lemma dict_get_remove_other {V : Type} (d : dict.t V) (k k' : string) :
  k' <> k -> dict.get (dict.remove d k) k' = dict.get d k'.
Proof.
  intros N. induction d as [| [k0 v0] d IH]; simpl; [reflexivity |].
  destruct (String.eqb_spec k0 k) as [-> | N0]; simpl.
  - now rewrite (proj2 (String.eqb_neq k k')) by congruence.
  - now rewrite IH.
Qed.

(** X8. [find] after [add_record] returns the record added under its
    name, and what it returned before under every other name: the last
    record added under a name wins. A name already in the book keeps its
    place in the order of the book, a new one goes to the end. *)
Theorem find_after_add_record (book : AddressBook.t) (record : Record.t) :
  AddressBook.find (AddressBook.add_record book record)
    (Name.value (Record.name record)) = Some record
  /\ (forall n, n <> Name.value (Record.name record) ->
        AddressBook.find (AddressBook.add_record book record) n = AddressBook.find book n)
  /\ dict.keys (AddressBook.data (AddressBook.add_record book record))
     = match AddressBook.find book (Name.value (Record.name record)) with
       | Some _ => dict.keys (AddressBook.data book)
       | None => (dict.keys (AddressBook.data book)
                  ++ [Name.value (Record.name record)])%list
       end.
Proof.
  unfold AddressBook.find, AddressBook.add_record. simpl.
  split; [apply dict_get_set_same |].
  split; [intros n N; now apply dict_get_set_other | apply dict_keys_set].
Qed.

(** X9. [delete] of a name the book holds returns its record and leaves a
    book in which [find] no longer finds the name and finds every other name
    as before; [delete] of a name the book does not hold raises [KeyError]
    and leaves the book as it was. *)
Theorem delete_then_find (book : AddressBook.t) (n : string) :
  NoDup (dict.keys (AddressBook.data book)) ->
  match AddressBook.find book n with
  | Some r =>
      fst (AddressBook.delete book n) = Ok r
      /\ AddressBook.find (snd (AddressBook.delete book n)) n = None
      /\ (forall n', n' <> n ->
            AddressBook.find (snd (AddressBook.delete book n)) n'
            = AddressBook.find book n')
  | None => AddressBook.delete book n = (Raise (KeyError n), book)
  end.
Proof.
  intros H. unfold AddressBook.find, AddressBook.delete, dict.pop.
  destruct (dict.get (AddressBook.data book) n) as [r |] eqn:E; simpl; [| reflexivity].
  split; [reflexivity |]. split.
  - apply dict_get_None. now apply dict_remove_NoDup.
  - intros n' N. now apply dict_get_remove_other.
Qed.

Lemma delete_then_find_witness :
  AddressBook.find
    (snd (AddressBook.delete
            (AddressBook.add_record AddressBook.empty (Record.mk (Name.mk "john") [] None))
            "john"))
    "john" = None
  /\ AddressBook.delete AddressBook.empty "john" = (Raise (KeyError "john"), AddressBook.empty).
Proof.
  split.
  - apply (delete_then_find
             (AddressBook.add_record AddressBook.empty (Record.mk (Name.mk "john") [] None))
             "john").
    simpl. repeat constructor. simpl. tauto.
  - apply (delete_then_find AddressBook.empty "john"). constructor.
Defined.

(** X10. No operation of the address book makes a name appear twice among
    the keys: a book with distinct keys has distinct keys after [add_record],
    [delete], [find] and [get_upcoming_birthdays], and so has every book that
    a run of operations makes from the empty one. *)
Theorem keys_stay_distinct (book : AddressBook.t) (ops : list operation) :
  NoDup (dict.keys (AddressBook.data book)) ->
  NoDup (dict.keys (AddressBook.data
           (fold_left (fun b op => book_after op b) ops book))).
Proof.
  revert book. induction ops as [| op ops IH]; intros book H; simpl; [exact H |].
  apply IH. destruct op; simpl; try exact H.
  - now apply dict_set_NoDup.
  - unfold AddressBook.delete, dict.pop.
    destruct (dict.get (AddressBook.data book) name); simpl; [| exact H].
    now apply dict_remove_NoDup.
Qed.

Lemma keys_stay_distinct_witness :
  NoDup (dict.keys (AddressBook.data
           (fold_left (fun b op => book_after op b)
              [Add_record (Record.mk (Name.mk "john") [] None);
               Add_record (Record.mk (Name.mk "john") [Phone.mk "1234567890"] None);
               Delete "mary"]
              AddressBook.empty))).
Proof.
  apply (keys_stay_distinct AddressBook.empty). constructor.
Defined.

(** ** The query: weekend shift, window and list *)

(** X11. For a date of the calendar, the weekend shift ends on the first
    weekday on or after the date (the date itself, the Monday after a
    Saturday or Sunday) exactly when that day lies in the month of the date;
    when it lies in the next month, [replace] raises [ValueError] and no date
    comes out. *)
Theorem adjust_weekend_outcome (d : datetime.t) :
  datetime.valid_date (datetime.year d) (datetime.month d) (datetime.day d) = true ->
  if datetime.day d + days_to_weekday d
     <=? datetime.days_in_month (datetime.year d) (datetime.month d)
  then AddressBook.adjust_weekend d = Ok (with_day d (datetime.day d + days_to_weekday d))
       /\ datetime.weekday (with_day d (datetime.day d + days_to_weekday d)) <= 4
       /\ 0 <= days_to_weekday d <= 2
  else exists msg, AddressBook.adjust_weekend d = Raise (ValueError msg).
Proof.
  intros V.
  destruct (Z.leb_spec (datetime.day d + days_to_weekday d)
              (datetime.days_in_month (datetime.year d) (datetime.month d))) as [H | H].
  - destruct (adjust_weekend_in_month d V H) as [E W]. split; [exact E |].
    split; [exact W |]. unfold days_to_weekday.
    destruct (datetime.weekday d =? 5), (datetime.weekday d =? 6); lia.
  - now apply adjust_weekend_past_month.
Qed.

Lemma adjust_weekend_outcome_witness :
  AddressBook.adjust_weekend (datetime.mk 2024 6 15 0 0 0 0)
  = Ok (datetime.mk 2024 6 17 0 0 0 0)
  /\ exists msg,
       AddressBook.adjust_weekend (datetime.mk 2024 8 31 0 0 0 0) = Raise (ValueError msg).
Proof.
  split.
  - exact (proj1 (adjust_weekend_outcome (datetime.mk 2024 6 15 0 0 0 0) eq_refl)).
  - exact (adjust_weekend_outcome (datetime.mk 2024 8 31 0 0 0 0) eq_refl).
Defined.


Lemma ymd2ord_in_year (y m d : Z) :
  datetime.valid_date y m d = true ->
  datetime.days_before_year y < datetime.ymd2ord y m d
  <= datetime.days_before_year (y + 1).
Proof.
  intros V. apply valid_date_iff in V as (Y & M & D).
  unfold datetime.ymd2ord. rewrite leap_year_step.
  assert (B : 0 <= datetime.days_before_month y m
              /\ datetime.days_before_month y m + datetime.days_in_month y m
                 <= 365 + (if datetime.is_leap y then 1 else 0)).
  { unfold datetime.days_before_month, datetime.days_in_month.
    destruct (datetime.is_leap y);
      destruct (month_cases m M) as
        [-> | [-> | [-> | [-> | [-> | [-> | [-> | [-> | [-> | [-> | [-> | ->]]]]]]]]]]];
      cbn; lia. }
  lia.
Qed.

(** X12. Which birthdays pass the test of the window, by dates. Let [next]
    be the date the code settles on: the birthday in the year of [today], or
    in the year after when that one lies before [today]. At midnight sharp
    the record is reported (or the weekend shift raises) when [next] lies 0
    to 7 days after the date of [today]; at any later time of day, when it
    lies 1 to 8 days after; otherwise the record is passed over. *)
Theorem window_in_days (today : datetime.t) (record : Record.t)
  (b : Birthday.t) (this_year : datetime.t) :
  datetime.valid today = true ->
  Record.birthday record = Some b ->
  at_midnight (Birthday.value b) ->
  datetime.replace_year (Birthday.value b) (datetime.year today) = Ok this_year ->
  let late := if datetime.time_of_day today =? 0 then 0 else 1 in
  (late <= datetime.toordinal this_year - datetime.toordinal today ->
   AddressBook.upcoming_of today record =
   if datetime.toordinal this_year - datetime.toordinal today <=? 7 + late
   then reported record this_year else Ok None)
  /\ (forall next,
        datetime.lt this_year today = true ->
        datetime.replace_year (Birthday.value b) (datetime.year today + 1) = Ok next ->
        AddressBook.upcoming_of today record =
        if datetime.toordinal next - datetime.toordinal today <=? 7 + late
        then reported record next else Ok None).
Proof.
  intros Vt Hb Hmid Hr late. split.
  - intros Hd. rewrite (upcoming_of_this_year today record b this_year Vt Hb Hmid Hr Hd).
    subst late. now destruct (datetime.time_of_day today =? 0).
  - intros next L Hn. unfold AddressBook.upcoming_of. rewrite Hb, Hr.
    cbv beta iota zeta delta [res_bind]. rewrite L, Hn.
    apply replace_year_inv in Hn as [En Vn].
    assert (Mn : at_midnight next) by (subst next; exact Hmid).
    rewrite (sub_days_midnight next today Mn Vt). fold late.
    pose proof (proj1 (valid_iff today) Vt) as [Vtd _].
    pose proof (ymd2ord_in_year _ _ _ Vtd) as B1.
    pose proof (ymd2ord_in_year _ _ _ Vn) as B2.
    assert (Hpos : 1 <= datetime.toordinal next - datetime.toordinal today).
    { unfold datetime.toordinal. subst next. simpl. lia. }
    assert (Hl : 0 <= late <= 1) by (subst late; destruct (_ =? _); lia).
    set (delta := datetime.toordinal next - datetime.toordinal today) in *.
    rewrite (proj2 (Z.leb_le 0 (delta - late))) by lia. cbn [andb]. unfold reported.
    destruct (Z.leb_spec (delta - late) 7), (Z.leb_spec delta (7 + late));
      try lia; reflexivity.
Qed.

Lemma window_in_days_witness :
  AddressBook.upcoming_of (datetime.mk 2024 6 12 10 0 0 0)
    (Record.mk (Name.mk "john") [] (Some (Birthday.mk (datetime.mk 1990 6 20 0 0 0 0))))
  = reported
      (Record.mk (Name.mk "john") [] (Some (Birthday.mk (datetime.mk 1990 6 20 0 0 0 0))))
      (datetime.mk 2024 6 20 0 0 0 0)
  /\ AddressBook.upcoming_of (datetime.mk 2024 12 30 10 0 0 0)
       (Record.mk (Name.mk "mary") [] (Some (Birthday.mk (datetime.mk 1985 1 2 0 0 0 0))))
     = reported
         (Record.mk (Name.mk "mary") [] (Some (Birthday.mk (datetime.mk 1985 1 2 0 0 0 0))))
         (datetime.mk 2025 1 2 0 0 0 0).
Proof.
  split.
  - apply (proj1 (window_in_days (datetime.mk 2024 6 12 10 0 0 0)
             (Record.mk (Name.mk "john") [] (Some (Birthday.mk (datetime.mk 1990 6 20 0 0 0 0))))
             (Birthday.mk (datetime.mk 1990 6 20 0 0 0 0)) (datetime.mk 2024 6 20 0 0 0 0)
             eq_refl eq_refl (conj eq_refl (conj eq_refl (conj eq_refl eq_refl))) eq_refl)).
    vm_compute. discriminate.
  - apply (proj2 (window_in_days (datetime.mk 2024 12 30 10 0 0 0)
             (Record.mk (Name.mk "mary") [] (Some (Birthday.mk (datetime.mk 1985 1 2 0 0 0 0))))
             (Birthday.mk (datetime.mk 1985 1 2 0 0 0 0)) (datetime.mk 2024 1 2 0 0 0 0)
             eq_refl eq_refl (conj eq_refl (conj eq_refl (conj eq_refl eq_refl))) eq_refl)
             (datetime.mk 2025 1 2 0 0 0 0)); reflexivity.
Defined.

Lemma upcoming_loop_list (today : datetime.t) (records : list Record.t) :
  forall acc l,
    AddressBook.upcoming_loop today records acc = Ok l <->
    Forall (fun r => exists e, AddressBook.upcoming_of today r = Ok e) records
    /\ l = (acc ++ flat_map (entry_of today) records)%list.
Proof.
  induction records as [| r records IH]; intros acc l; simpl.
  - rewrite app_nil_r. split.
    + intros E. injection E as <-. split; [constructor | reflexivity].
    + intros [_ ->]. reflexivity.
  - unfold entry_of at 1.
    destruct (AddressBook.upcoming_of today r) as [e | x] eqn:E; simpl.
    + rewrite IH. split.
      * intros [F ->]. split; [constructor; [now exists e | exact F] |].
        destruct e; simpl; [now rewrite <- app_assoc | reflexivity].
      * intros [F ->]. inversion F; subst. split; [assumption |].
        destruct e; simpl; [now rewrite <- app_assoc | reflexivity].
    + split; [discriminate |]. intros [F _]. inversion F as [| ? ? [e He] _]; subst.
      rewrite E in He. discriminate.
Qed.

(** X13. [get_upcoming_birthdays] returns a list exactly when no record of
    the book makes its round of the loop raise, and the list then holds the
    entries of the records in the order of the book, at most one for each;
    one record that raises takes the whole list away. *)
Theorem get_upcoming_birthdays_list (book : AddressBook.t) (today : datetime.t)
  (l : list AddressBook.upcoming) :
  AddressBook.get_upcoming_birthdays book today = Ok l <->
  Forall (fun r => exists e, AddressBook.upcoming_of today r = Ok e)
    (dict.values (AddressBook.data book))
  /\ l = flat_map (entry_of today) (dict.values (AddressBook.data book)).
Proof. unfold AddressBook.get_upcoming_birthdays. apply upcoming_loop_list. Qed.




(** ** The handlers and the book *)

(** Case analysis on the innermost test of a handler first. *)
Ltac handler_case :=
  match goal with
  | |- context [match ?x with _ => _ end] =>
      lazymatch x with
      | context [match _ with _ => _ end] => fail
      | context [if _ then _ else _] => fail
      | _ => idtac
      end;
      lazymatch type of x with
      | res _ => destruct x as [? | [? | ? | ?]] eqn:?
      | _ => destruct x eqn:?
      end
  end.

Ltac handler_cases := repeat (handler_case; cbn).

(** X15. The handlers that only show something never change the book:
    [get_contact], [show_birthday], [get_all_contacts] and [birthdays] leave
    it as it was for every argument list, valid or not. *)
Theorem showing_changes_nothing (args : list string) (today : datetime.t)
  (book : AddressBook.t) :
  snd (get_contact args book) = book
  /\ snd (show_birthday args book) = book
  /\ snd (get_all_contacts book) = book
  /\ snd (birthdays today book) = book.
Proof.
  repeat split.
  - unfold get_contact, input_error, get_contact_body, validated, raises.
    destruct args as [| a [| b args]]; cbn; handler_cases; reflexivity.
  - unfold show_birthday, input_error, show_birthday_body, validated, raises.
    destruct args as [| a [| b args]]; cbn; handler_cases; reflexivity.
  - unfold get_all_contacts, input_error, get_all_contacts_body.
    handler_cases; reflexivity.
  - unfold birthdays, input_error, birthdays_body. handler_cases; reflexivity.
Qed.

(** X16. A handler that changes the book says so: unless its answer is its
    own message of success ("Contact added." or "Contact updated.", "Contact
    deleted.", "Phone removed.", "Contact changed.", "Birthday added."), the
    book is as it was before the call. *)
Theorem failure_changes_nothing (args : list string) (book : AddressBook.t) :
  (fst (add_contact args book) <> PyStr "Contact added." ->
   fst (add_contact args book) <> PyStr "Contact updated." ->
   snd (add_contact args book) = book)
  /\ (fst (delete_contact args book) <> PyStr "Contact deleted." ->
      snd (delete_contact args book) = book)
  /\ (fst (remove_contact_phone args book) <> PyStr "Phone removed." ->
      snd (remove_contact_phone args book) = book)
  /\ (fst (change_contact args book) <> PyStr "Contact changed." ->
      snd (change_contact args book) = book)
  /\ (fst (add_birthday args book) <> PyStr "Birthday added." ->
      snd (add_birthday args book) = book).
Proof.
  repeat split.
  - unfold add_contact, input_error, add_contact_body, validated, raises.
    destruct args as [| a [| b [| c args]]]; cbn; handler_cases;
      intros; try reflexivity; congruence.
  - unfold delete_contact, input_error, delete_contact_body, validated, raises,
      AddressBook.delete, dict.pop.
    destruct args as [| a [| b args]]; cbn; handler_cases;
      intros; try reflexivity; congruence.
  - unfold remove_contact_phone, input_error, remove_contact_phone_body, validated, raises.
    destruct args as [| a [| b [| c args]]]; cbn; handler_cases;
      intros; try reflexivity; congruence.
  - unfold change_contact, input_error, change_contact_body, validated, raises.
    destruct args as [| a [| b [| c [| d args]]]]; cbn; handler_cases;
      intros; try reflexivity; congruence.
  - unfold add_birthday, input_error, add_birthday_body, validated, raises.
    destruct args as [| a [| b [| c args]]]; cbn; handler_cases;
      intros; try reflexivity; congruence.
Qed.

Lemma failure_changes_nothing_witness :
  snd (add_contact ["j0hn"; "1234567890"] AddressBook.empty) = AddressBook.empty
  /\ snd (delete_contact ["mary"] AddressBook.empty) = AddressBook.empty.
Proof.
  split.
  - apply (proj1 (failure_changes_nothing ["j0hn"; "1234567890"] AddressBook.empty));
      discriminate.
  - apply (proj1 (proj2 (failure_changes_nothing ["mary"] AddressBook.empty)));
      discriminate.
Defined.

Lemma Name_init_alpha (n : string) :
  Str.isalpha n = true -> Name.init n = Ok (Name.mk n).
Proof. intros H. unfold Name.init. now rewrite H. Qed.

Lemma Phone_init_ok (p : string) :
  phone_ok p = true -> Phone.init p = Ok (Phone.mk p).
Proof.
  unfold phone_ok, Phone.init. intros H. apply andb_true_iff in H as [-> ->].
  reflexivity.
Qed.

Lemma find_mutated (book : AddressBook.t) (key : string) (r : Record.t) :
  AddressBook.find (mutated key r book) key = Some r
  /\ forall n, n <> key -> AddressBook.find (mutated key r book) n = AddressBook.find book n.
Proof.
  unfold AddressBook.find, mutated. simpl.
  split; [apply dict_get_set_same | intros n N; now apply dict_get_set_other].
Qed.

Lemma find_after_add_record_aux (book : AddressBook.t) (record : Record.t) :
  AddressBook.find (AddressBook.add_record book record)
    (Name.value (Record.name record)) = Some record
  /\ forall n, n <> Name.value (Record.name record) ->
       AddressBook.find (AddressBook.add_record book record) n = AddressBook.find book n.
Proof.
  unfold AddressBook.find, AddressBook.add_record. simpl.
  split; [apply dict_get_set_same | intros n N; now apply dict_get_set_other].
Qed.

(** X17. [add_contact] with a name of letters and a phone of ten digits:
    a name the book does not hold is added with that one phone ("Contact
    added."); a contact that already lists the phone is left alone ("Phone
    number already exists for this contact."); otherwise the phone goes to the
    end of the contact's list ("Contact updated."). Every other contact is
    found as before. *)
Theorem add_contact_outcomes (name phone : string) (book : AddressBook.t) :
  Str.isalpha name = true -> phone_ok phone = true ->
  let v := fst (add_contact [name; phone] book) in
  let book' := snd (add_contact [name; phone] book) in
  match AddressBook.find book name with
  | None =>
      v = PyStr "Contact added."
      /\ AddressBook.find book' name
         = Some (Record.mk (Name.mk name) [Phone.mk phone] None)
  | Some r =>
      if str_in phone (Record.phone_values r)
      then v = PyStr "Phone number already exists for this contact." /\ book' = book
      else v = PyStr "Contact updated."
           /\ AddressBook.find book' name
              = Some (Record.mk (Record.name r) (Record.phones r ++ [Phone.mk phone])%list
                        (Record.birthday r))
  end
  /\ forall n, n <> name -> AddressBook.find book' n = AddressBook.find book n.
Proof.
  intros Hn Hp. unfold add_contact, input_error, add_contact_body, validated.
  unfold Record.init, Record.add_phone.
  rewrite (Name_init_alpha name Hn), (Phone_init_ok phone Hp). cbn.
  destruct (AddressBook.find book name) as [r |] eqn:F; cbn.
  - destruct (str_in phone (Record.phone_values r)) eqn:S; cbn.
    + split; [split |]; reflexivity.
    + split; [split; [reflexivity | apply find_mutated] | apply find_mutated].
  - split; [split; [reflexivity |] |].
    + apply (proj1 (find_after_add_record_aux book
               (Record.mk (Name.mk name) [Phone.mk phone] None))).
    + apply (proj2 (find_after_add_record_aux book
               (Record.mk (Name.mk name) [Phone.mk phone] None))).
Qed.

Lemma add_contact_outcomes_witness :
  fst (add_contact ["john"; "1234567890"] AddressBook.empty) = PyStr "Contact added."
  /\ AddressBook.find (snd (add_contact ["john"; "1234567890"] AddressBook.empty)) "john"
     = Some (Record.mk (Name.mk "john") [Phone.mk "1234567890"] None).
Proof.
  exact (proj1 (add_contact_outcomes "john" "1234567890" AddressBook.empty
                  eq_refl eq_refl)).
Defined.

(** X18. [delete_contact] with a name of letters: a contact the book holds
    is taken out ("Contact deleted."), after which it is no longer found and
    every other contact is found as before; a name the book does not hold
    gives "Contact not found." and the book stays as it was. *)
Theorem delete_contact_outcomes (name : string) (book : AddressBook.t) :
  Str.isalpha name = true ->
  NoDup (dict.keys (AddressBook.data book)) ->
  match AddressBook.find book name with
  | Some _ =>
      fst (delete_contact [name] book) = PyStr "Contact deleted."
      /\ AddressBook.find (snd (delete_contact [name] book)) name = None
      /\ (forall n, n <> name ->
            AddressBook.find (snd (delete_contact [name] book)) n
            = AddressBook.find book n)
  | None => delete_contact [name] book = (PyStr "Contact not found.", book)
  end.
Proof.
  intros Hn Hd. unfold delete_contact, input_error, delete_contact_body, validated.
  rewrite (Name_init_alpha name Hn). cbn.
  unfold AddressBook.delete, AddressBook.find, dict.pop.
  destruct (dict.get (AddressBook.data book) name) as [r |] eqn:F; cbn; [| reflexivity].
  split; [reflexivity |]. split.
  - apply dict_get_None. now apply dict_remove_NoDup.
  - intros n N. now apply dict_get_remove_other.
Qed.

Lemma delete_contact_outcomes_witness :
  delete_contact ["mary"] AddressBook.empty = (PyStr "Contact not found.", AddressBook.empty)
  /\ fst (delete_contact ["john"]
            (snd (add_contact ["john"; "1234567890"] AddressBook.empty)))
     = PyStr "Contact deleted.".
Proof.
  split.
  - apply (delete_contact_outcomes "mary" AddressBook.empty); [reflexivity | constructor].
  - apply (delete_contact_outcomes "john"
             (snd (add_contact ["john"; "1234567890"] AddressBook.empty)));
      [reflexivity | repeat constructor; simpl; tauto].
Defined.

(** X19. [change_contact] with a name of letters and two phones of ten
    digits tells three cases apart: no such contact ("Contact not found."),
    a contact that does not list the old phone ("Old phone number not found in
    contact's phones."), both with the book unchanged, and the change itself
    ("Contact changed."), after which the contact lists the new phone in
    every place of the old one and every other contact is found as before.
    The new phone is not checked against the phones already listed. *)
Theorem change_contact_outcomes (name old_phone new_phone : string)
  (book : AddressBook.t) :
  Str.isalpha name = true -> phone_ok old_phone = true -> phone_ok new_phone = true ->
  match AddressBook.find book name with
  | None =>
      change_contact [name; old_phone; new_phone] book
      = (PyStr "Contact not found.", book)
  | Some r =>
      if str_in old_phone (Record.phone_values r)
      then fst (change_contact [name; old_phone; new_phone] book)
           = PyStr "Contact changed."
           /\ (exists r',
                 AddressBook.find (snd (change_contact [name; old_phone; new_phone] book))
                   name = Some r'
                 /\ Record.phone_values r'
                    = replace_all old_phone new_phone (Record.phone_values r)
                 /\ Record.name r' = Record.name r
                 /\ Record.birthday r' = Record.birthday r)
           /\ (forall n, n <> name ->
                 AddressBook.find (snd (change_contact [name; old_phone; new_phone] book)) n
                 = AddressBook.find book n)
      else change_contact [name; old_phone; new_phone] book
           = (PyStr "Old phone number not found in contact's phones.", book)
  end.
Proof.
  intros Hn Ho Hp.
  unfold change_contact, input_error, change_contact_body, validated.
  rewrite (Name_init_alpha name Hn), (Phone_init_ok _ Ho), (Phone_init_ok _ Hp). cbn.
  destruct (AddressBook.find book name) as [r |] eqn:F; cbn; [| reflexivity].
  destruct (str_in old_phone (Record.phone_values r)) eqn:S; cbn; [| reflexivity].
  split; [reflexivity |]. split.
  - exists (Record.edit_phone r old_phone new_phone).
    split; [apply find_mutated |]. split; [apply edit_phone_loop_values |].
    split; reflexivity.
  - apply find_mutated.
Qed.

Lemma change_contact_outcomes_witness :
  change_contact ["mary"; "1234567890"; "0987654321"] AddressBook.empty
  = (PyStr "Contact not found.", AddressBook.empty)
  /\ fst (change_contact ["john"; "1234567890"; "0987654321"]
            (snd (add_contact ["john"; "1234567890"] AddressBook.empty)))
     = PyStr "Contact changed.".
Proof.
  split.
  - apply (change_contact_outcomes "mary" "1234567890" "0987654321" AddressBook.empty);
      reflexivity.
  - apply (change_contact_outcomes "john" "1234567890" "0987654321"
             (snd (add_contact ["john"; "1234567890"] AddressBook.empty)));
      reflexivity.
Defined.

(** X20. [remove_contact_phone] with a name of letters and a phone of ten
    digits tells three cases apart: no such contact ("Contact not found."), a
    contact that does not list the phone ("Phone number not found in
    contact's phones."), both with the book unchanged, and the removal
    ("Phone removed."), after which the contact is the one [remove_phone]
    leaves, with fewer phones and all its other phones, and every other
    contact is found as before. *)
Theorem remove_contact_phone_outcomes (name phone : string) (book : AddressBook.t) :
  Str.isalpha name = true -> phone_ok phone = true ->
  match AddressBook.find book name with
  | None =>
      remove_contact_phone [name; phone] book = (PyStr "Contact not found.", book)
  | Some r =>
      if str_in phone (Record.phone_values r)
      then fst (remove_contact_phone [name; phone] book) = PyStr "Phone removed."
           /\ AddressBook.find (snd (remove_contact_phone [name; phone] book)) name
              = Some (Record.remove_phone r phone)
           /\ (List.length (Record.phone_values (Record.remove_phone r phone))
               < List.length (Record.phone_values r))%nat
           /\ (forall n, n <> name ->
                 AddressBook.find (snd (remove_contact_phone [name; phone] book)) n
                 = AddressBook.find book n)
      else remove_contact_phone [name; phone] book
           = (PyStr "Phone number not found in contact's phones.", book)
  end.
Proof.
  intros Hn Hp.
  assert (L : forall r, In phone (Record.phone_values r) ->
              (List.length (Record.phone_values (Record.remove_phone r phone))
               < List.length (Record.phone_values r))%nat).
  { intros r Hin. unfold Record.phone_values in *.
    rewrite remove_phone_skipping, !length_map. now apply remove_skipping_length. }
  unfold remove_contact_phone, input_error, remove_contact_phone_body, validated.
  rewrite (Name_init_alpha name Hn), (Phone_init_ok _ Hp). cbn.
  destruct (AddressBook.find book name) as [r |] eqn:F; cbn; [| reflexivity].
  destruct (str_in phone (Record.phone_values r)) eqn:S; cbn; [| reflexivity].
  split; [reflexivity |]. split; [apply find_mutated |]. split; [| apply find_mutated].
  apply L. unfold str_in in S.
  apply existsb_exists in S as (x & Hx & E). apply String.eqb_eq in E. now subst x.
Qed.

Lemma remove_contact_phone_outcomes_witness :
  remove_contact_phone ["mary"; "1234567890"] AddressBook.empty
  = (PyStr "Contact not found.", AddressBook.empty)
  /\ fst (remove_contact_phone ["john"; "1234567890"]
            (snd (add_contact ["john"; "1234567890"] AddressBook.empty)))
     = PyStr "Phone removed.".
Proof.
  split.
  - apply (remove_contact_phone_outcomes "mary" "1234567890" AddressBook.empty);
      reflexivity.
  - apply (remove_contact_phone_outcomes "john" "1234567890"
             (snd (add_contact ["john"; "1234567890"] AddressBook.empty)));
      reflexivity.
Defined.

Lemma Birthday_reparse (b : Birthday.t) :
  at_midnight (Birthday.value b) -> datetime.valid (Birthday.value b) = true ->
  1000 <= datetime.year (Birthday.value b) ->
  Birthday.init (datetime.strftime (Birthday.value b)) = Ok b.
Proof.
  intros Hm Hv Hy. unfold Birthday.init.
  rewrite strptime_strftime by assumption. now destruct b.
Qed.

(** X21. [add_birthday] for a contact of the book, with a date that
    [Birthday] accepts (year of four digits), answers "Birthday added." and
    stores that date in place of any birthday the contact had, phones and
    name untouched; [show_birthday] then shows the date in the form
    DD.MM.YYYY, whatever form it was typed in. *)
Theorem add_then_show_birthday (name s : string) (b : Birthday.t) (r : Record.t)
  (book : AddressBook.t) :
  Str.isalpha name = true ->
  Birthday.init s = Ok b ->
  1000 <= datetime.year (Birthday.value b) ->
  AddressBook.find book name = Some r ->
  let book' := snd (add_birthday [name; s] book) in
  fst (add_birthday [name; s] book) = PyStr "Birthday added."
  /\ AddressBook.find book' name
     = Some (Record.mk (Record.name r) (Record.phones r) (Some b))
  /\ show_birthday [name] book'
     = (PyStr (Str.capitalize name ++ "'s day of birth is "
               ++ datetime.strftime (Birthday.value b) ++ "."), book').
Proof.
  intros Hn Hb Hy F book'. pose proof (Birthday_init_midnight s b Hb) as [Hm Hv].
  assert (E : add_birthday [name; s] book
              = (PyStr "Birthday added.",
                 mutated name (Record.mk (Record.name r) (Record.phones r) (Some b)) book)).
  { unfold add_birthday, input_error, add_birthday_body, validated.
    rewrite (Name_init_alpha name Hn), Hb. cbn [res_bind]. cbv beta iota.
    cbn [Name.value]. rewrite F.
    unfold Record.add_birthday. rewrite (Birthday_reparse b Hm Hv Hy). reflexivity. }
  subst book'. rewrite E. cbn [fst snd].
  pose proof (proj1 (find_mutated book name
                       (Record.mk (Record.name r) (Record.phones r) (Some b)))) as G.
  split; [reflexivity |]. split; [exact G |].
  unfold show_birthday, input_error, show_birthday_body, validated.
  rewrite (Name_init_alpha name Hn). cbv beta iota. cbn [Name.value]. rewrite G.
  reflexivity.
Qed.

Lemma add_then_show_birthday_witness :
  let book := snd (add_contact ["john"; "1234567890"] AddressBook.empty) in
  show_birthday ["john"] (snd (add_birthday ["john"; "1.1.2030"] book))
  = (PyStr "John's day of birth is 01.01.2030.",
     snd (add_birthday ["john"; "1.1.2030"] book)).
Proof.
  apply (add_then_show_birthday "john" "1.1.2030"
           (Birthday.mk (datetime.mk 2030 1 1 0 0 0 0))
           (Record.mk (Name.mk "john") [Phone.mk "1234567890"] None)
           (snd (add_contact ["john"; "1234567890"] AddressBook.empty)));
    [reflexivity | reflexivity | simpl; lia | reflexivity].
Defined.

Lemma Birthday_init_raises (s : string) (e : exn) :
  Birthday.init s = Raise e -> e = ValueError "Invalid date format. Use DD.MM.YYYY".
Proof.
  unfold Birthday.init, datetime.strptime. intros E.
  destruct (datetime.regex_matches s) as [| [[[d m] y] rest] ms];
    [now injection E as <- |].
  destruct rest; [| now injection E as <-].
  destruct (datetime.valid_date y m d) eqn:V.
  - rewrite (proj2 (check_date_fields_ok _ _ _) V) in E. discriminate.
  - destruct (check_date_fields_raises _ _ _ V) as [msg Hmsg].
    rewrite Hmsg in E. simpl in E. now injection E as <-.
Qed.



(** ** What the handlers keep true of the book *)























(** ** parse_input *)

Lemma rev_string_rev_string (s acc acc' : string) :
  Str.rev_string acc (Str.rev_string acc' s) = Str.rev_string (s ++ acc) acc'.
Proof.
  revert acc acc'. induction s as [| c s IH]; intros acc acc'; simpl; [reflexivity |].
  now rewrite IH.
Qed.

Lemma rev_string_involutive (s : string) :
  Str.rev_string "" (Str.rev_string "" s) = s.
Proof.
  rewrite rev_string_rev_string. simpl.
  induction s as [| c s IH]; simpl; [reflexivity | now rewrite IH].
Qed.

Lemma rev_string_any (p : ascii -> bool) (s acc : string) :
  Str.any p (Str.rev_string acc s) = Str.any p s || Str.any p acc.
Proof.
  revert acc. induction s as [| c s IH]; intros acc; simpl; [reflexivity |].
  rewrite IH. simpl. destruct (p c), (Str.any p s), (Str.any p acc); reflexivity.
Qed.

Lemma rev_string_nonempty (s acc : string) :
  Str.nonempty (Str.rev_string acc s) = Str.nonempty s || Str.nonempty acc.
Proof.
  revert acc. induction s as [| c s IH]; intros acc; simpl; [reflexivity |].
  rewrite IH. simpl. now rewrite orb_true_r.
Qed.

Lemma flush_words (cur : string) (out : list string) :
  Str.any Str.char_isspace cur = false -> Forall word out ->
  Forall word (Str.flush cur out).
Proof.
  intros Hc Ho. unfold Str.flush. destruct cur as [| c cur]; [exact Ho |].
  constructor; [| exact Ho]. split.
  - now rewrite rev_string_nonempty.
  - rewrite rev_string_any, Hc. reflexivity.
Qed.

Lemma split_go_words (s cur : string) (out : list string) :
  Str.any Str.char_isspace cur = false -> Forall word out ->
  Forall word (Str.split_go s cur out).
Proof.
  revert cur out. induction s as [| c s IH]; intros cur out Hc Ho; simpl.
  - apply Forall_rev. now apply flush_words.
  - destruct (Str.char_isspace c) eqn:E.
    + apply IH; [reflexivity | now apply flush_words].
    + apply IH; [simpl; now rewrite E | exact Ho].
Qed.

Lemma split_go_nil (s cur : string) (out : list string) :
  Str.split_go s cur out = [] <->
  Str.all Str.char_isspace s = true /\ cur = "" /\ out = [].
Proof.
  revert cur out. induction s as [| c s IH]; intros cur out; simpl.
  - unfold Str.flush. destruct cur as [| c cur].
    + split.
      * intros H. apply (f_equal (@rev string)) in H. rewrite rev_involutive in H.
        now subst.
      * intros (_ & _ & ->). reflexivity.
    + split; [| intros (_ & H & _); discriminate].
      intros H. apply (f_equal (@rev string)) in H. rewrite rev_involutive in H.
      discriminate.
  - destruct (Str.char_isspace c) eqn:E; rewrite IH; simpl.
    + unfold Str.flush. destruct cur as [| c' cur].
      * tauto.
      * split; [intros (_ & _ & H); discriminate | intros (_ & H & _); discriminate].
    + split; [intros (_ & H & _); discriminate | intros (H & _); discriminate].
Qed.

Lemma lstrip_word (t : string) : Str.any Str.char_isspace t = false -> Str.lstrip t = t.
Proof.
  destruct t as [| c t]; simpl; [reflexivity |].
  destruct (Str.char_isspace c); [discriminate | reflexivity].
Qed.

Lemma strip_word (t : string) : Str.any Str.char_isspace t = false -> Str.strip t = t.
Proof.
  intros H. unfold Str.strip. rewrite (lstrip_word t H).
  rewrite lstrip_word by (rewrite rev_string_any, H; reflexivity).
  apply rev_string_involutive.
Qed.

Lemma char_lower_isspace (c : ascii) :
  Str.char_isspace (Str.char_lower c) = Str.char_isspace c.
Proof.
  unfold Str.char_lower. destruct (Str.is_upper c) eqn:U; [| reflexivity].
  apply in_range_spec in U. unfold Str.char_isspace.
  assert (F : forall lo hi x, (hi < Str.code x)%N -> Str.in_range lo hi x = false)
    by (intros; apply in_range_false; now right).
  rewrite !F; try reflexivity; try lia; rewrite code_of_ascii_of_N; lia.
Qed.

Lemma lower_word (t : string) : word t -> word (Str.lower t).
Proof.
  intros [Hn Hs]. split.
  - destruct t; [discriminate | reflexivity].
  - unfold Str.lower. induction t as [| c t IH]; simpl in *; [reflexivity |].
    apply orb_false_iff in Hs as [Hc Ht]. rewrite char_lower_isspace, Hc. simpl.
    destruct t as [| c' t']; [reflexivity | now apply IH].
Qed.

Lemma parse_input_shape (user_input : string) :
  if Str.all Str.char_isspace user_input
  then parse_input user_input
       = PyStr "not enough values to unpack (expected at least 1, got 0)"
  else exists cmd args,
         parse_input user_input = PyTuple (cmd :: args)
         /\ Forall (fun t => word t /\ Str.lower t = t) (cmd :: args).
Proof.
  unfold parse_input.
  pose proof (split_go_nil user_input "" []) as N.
  pose proof (split_go_words user_input "" [] eq_refl (Forall_nil _)) as W.
  fold (Str.split user_input) in N, W.
  destruct (Str.all Str.char_isspace user_input) eqn:A.
  - rewrite (proj2 N) by tauto. reflexivity.
  - destruct (Str.split user_input) as [| cmd args] eqn:S.
    + destruct (proj1 N eq_refl) as [H _]. discriminate.
    + inversion W as [| ? ? Hc Ha]; subst. simpl.
      exists (Str.lower (Str.strip cmd)), (List.map Str.lower args).
      split; [reflexivity |]. constructor.
      * rewrite (strip_word cmd (proj2 Hc)).
        split; [now apply lower_word | apply lower_idempotent].
      * apply Forall_map. eapply Forall_impl; [| exact Ha].
        intros t Ht. split; [now apply lower_word | apply lower_idempotent].
Qed.


(** ** The read loop *)

Lemma map_rev_string (f : ascii -> ascii) (s acc : string) :
  Str.map f (Str.rev_string acc s) = Str.rev_string (Str.map f acc) (Str.map f s).
Proof.
  revert acc. induction s as [| c s IH]; intros acc; simpl; [reflexivity |].
  now rewrite IH.
Qed.

Lemma flush_map (f : ascii -> ascii) (cur : string) (out : list string) :
  Str.flush (Str.map f cur) (List.map (Str.map f) out)
  = List.map (Str.map f) (Str.flush cur out).
Proof.
  destruct cur as [| c cur]; simpl; [reflexivity |].
  f_equal. symmetry. apply (map_rev_string f (String c cur) "").
Qed.

Lemma split_go_map (f : ascii -> ascii) (s cur : string) (out : list string) :
  (forall c, Str.char_isspace (f c) = Str.char_isspace c) ->
  Str.split_go (Str.map f s) (Str.map f cur) (List.map (Str.map f) out)
  = List.map (Str.map f) (Str.split_go s cur out).
Proof.
  intros Hf. revert cur out. induction s as [| c s IH]; intros cur out; simpl.
  - now rewrite flush_map, map_rev.
  - rewrite Hf. destruct (Str.char_isspace c).
    + rewrite flush_map. apply (IH "").
    + apply (IH (String c cur)).
Qed.

Lemma split_lower (s : string) :
  Str.split (Str.lower s) = List.map Str.lower (Str.split s).
Proof. apply (split_go_map Str.char_lower s "" []), char_lower_isspace. Qed.

(** [parse_input] does not see the case of the letters typed. *)
Lemma parse_input_of_lower (user_input : string) :
  parse_input (Str.lower user_input) = parse_input user_input.
Proof.
  unfold parse_input. rewrite split_lower.
  pose proof (split_go_words user_input "" [] eq_refl (Forall_nil _)) as W.
  fold (Str.split user_input) in W.
  destruct (Str.split user_input) as [| cmd args]; simpl; [reflexivity |].
  inversion W as [| ? ? Hc Ha]; subst. f_equal. f_equal.
  - rewrite (strip_word cmd (proj2 Hc)).
    rewrite (strip_word _ (proj2 (lower_word cmd Hc))). apply lower_idempotent.
  - rewrite map_map. apply map_ext. intros t. apply lower_idempotent.
Qed.

(** X26. Two lines that differ only in the case of their letters are the
    same command: they print the same and leave the same book, whatever the
    command, the names and the other arguments are. *)
Theorem dispatch_ignores_case (a b : string) (today : datetime.t) (book : AddressBook.t) :
  Str.lower a = Str.lower b ->
  dispatch a today book = dispatch b today book.
Proof.
  intros H. unfold dispatch.
  now rewrite <- (parse_input_of_lower a), <- (parse_input_of_lower b), H.
Qed.

Lemma dispatch_ignores_case_witness :
  dispatch "ADD John 1234567890" (datetime.mk 2024 6 12 10 0 0 0) AddressBook.empty
  = dispatch "add john 1234567890" (datetime.mk 2024 6 12 10 0 0 0) AddressBook.empty.
Proof.
  apply (dispatch_ignores_case "ADD John 1234567890" "add john 1234567890").
  reflexivity.
Defined.

Lemma dispatch_cases (user_input : string) (today : datetime.t) (book : AddressBook.t) :
  (exists book', exists v, dispatch user_input today book = Continue [v] book')
  \/ dispatch user_input today book = Break [PyStr "Good bye!"].
Proof.
  unfold dispatch. pose proof (parse_input_shape user_input) as S.
  destruct (Str.all Str.char_isspace user_input).
  - rewrite S. left. exists book. eexists. reflexivity.
  - destruct S as (cmd & args & -> & _). cbn [unpack].
    repeat match goal with
           | |- context [if ?c then _ else _] =>
               destruct c; [try (right; reflexivity); left; eexists; eexists; reflexivity |]
           end.
    left. eexists. eexists. reflexivity.
Qed.

(** X27. No line typed makes the loop raise: whatever the line, one round
    either prints exactly one thing and goes on, or prints "Good bye!" and
    leaves the loop, which happens for the commands close and exit only. A
    line of white space alone (or an empty line) prints "Invalid command."
    and leaves the book as it was: [parse_input] returns the text of its
    own error, whose first letter is taken for the command. *)
Theorem dispatch_never_raises (user_input : string) (today : datetime.t)
  (book : AddressBook.t) :
  dispatch user_input today book <> Uncaught
  /\ ((exists book' v, dispatch user_input today book = Continue [v] book')
      \/ (dispatch user_input today book = Break [PyStr "Good bye!"]
          /\ exists args, parse_input user_input = PyTuple ("close" :: args)
                          \/ parse_input user_input = PyTuple ("exit" :: args)))
  /\ (Str.all Str.char_isspace user_input = true ->
      dispatch user_input today book = Continue [PyStr "Invalid command."] book).
Proof.
  split; [| split].
  - destruct (dispatch_cases user_input today book) as [(b' & v & ->) | ->]; discriminate.
  - unfold dispatch. pose proof (parse_input_shape user_input) as S.
    destruct (Str.all Str.char_isspace user_input).
    + rewrite S. left. exists book. eexists. reflexivity.
    + destruct S as (cmd & args & -> & _). cbn [unpack].
      destruct (str_in cmd ["close"; "exit"]) eqn:C.
      * right. split; [reflexivity |]. exists args. unfold str_in in C. simpl in C.
        destruct (String.eqb_spec cmd "close") as [-> | _]; [now left |].
        destruct (String.eqb_spec cmd "exit") as [-> | _]; [now right | discriminate].
      * left.
        repeat match goal with
               | |- context [if ?c then _ else _] =>
                   destruct c; [eexists; eexists; reflexivity |]
               end.
        eexists. eexists. reflexivity.
  - intros A. unfold dispatch. pose proof (parse_input_shape user_input) as S.
    rewrite A in S. rewrite S. reflexivity.
Qed.

Lemma dispatch_never_raises_witness :
  dispatch "   " (datetime.mk 2024 6 12 10 0 0 0) AddressBook.empty
  = Continue [PyStr "Invalid command."] AddressBook.empty.
Proof.
  apply (proj2 (proj2 (dispatch_never_raises "   " (datetime.mk 2024 6 12 10 0 0 0)
                         AddressBook.empty))).
  reflexivity.
Defined.



Section Session.

Variable blob : Type.
Variable pickle_dump : AddressBook.t -> blob.
Variable pickle_load : blob -> option AddressBook.t.

Lemma main_loop_app (l1 l2 : list (string * datetime.t)) (book b : AddressBook.t)
  (fs fs' : filesystem blob) (printed p : list pyval) :
  main_loop pickle_dump l1 book fs printed = Reading p b fs' ->
  main_loop pickle_dump (l1 ++ l2)%list book fs printed
  = main_loop pickle_dump l2 b fs' p.
Proof.
  revert book printed. induction l1 as [| [line today] l1 IH]; intros book printed; simpl.
  - intros E. now injection E as <- <- <-.
  - destruct (dispatch line today book); try discriminate. apply IH.
Qed.


Hypothesis pickle_roundtrip : forall book, pickle_load (pickle_dump book) = Some book.

(** X29. What a session holds when it is closed is what the next session
    starts with: if [main] is reading with the book [b], then [close] or
    [exit] prints "Good bye!", returns, and leaves a file system on which
    [main] starts with the book [b] again. Where the default file does not
    exist, [main] starts with the empty book. *)
Theorem session_round_trip (lines : list (string * datetime.t)) (fs fs' : filesystem blob)
  (p : list pyval) (b : AddressBook.t) (command : string) (today : datetime.t) :
  main pickle_dump pickle_load lines fs = Reading p b fs' ->
  command = "close" \/ command = "exit" ->
  let saved := save_data pickle_dump b default_filename fs' in
  main pickle_dump pickle_load (lines ++ [(command, today)])%list fs
  = Returned (p ++ [PyStr "Good bye!"])%list saved
  /\ main pickle_dump pickle_load [] saved
     = Reading [PyStr "Welcome to the assistant bot!"] b saved
  /\ (fs default_filename = None ->
      main pickle_dump pickle_load [] fs
      = Reading [PyStr "Welcome to the assistant bot!"] AddressBook.empty fs).
Proof.
  intros M C saved. unfold main in *. split; [| split].
  - destruct (load_data pickle_load default_filename fs) as [book |]; [| discriminate].
    rewrite (main_loop_app lines [(command, today)] book b fs fs' _ p M).
    destruct C as [-> | ->]; reflexivity.
  - unfold load_data, saved, save_data, write_file. rewrite String.eqb_refl.
    now rewrite pickle_roundtrip.
  - intros N. unfold load_data. now rewrite N.
Qed.

End Session.


Lemma session_round_trip_witness :
  let fs := fun _ : string => @None AddressBook.t in
  let b := snd (add_contact ["john"; "1234567890"] AddressBook.empty) in
  main (fun b => b) (fun b => Some b) [] (save_data (fun b => b) b default_filename fs)
  = Reading [PyStr "Welcome to the assistant bot!"] b
      (save_data (fun b => b) b default_filename fs).
Proof.
  exact (proj1 (proj2 (session_round_trip AddressBook.t (fun b => b) (fun b => Some b)
           (fun b => eq_refl)
           [("add john 1234567890", datetime.mk 2024 6 12 10 0 0 0)]
           (fun _ => None) (fun _ => None)
           [PyStr "Welcome to the assistant bot!"; PyStr "Contact added."]
           (snd (add_contact ["john"; "1234567890"] AddressBook.empty))
           "exit" (datetime.mk 2024 6 12 10 0 0 0) eq_refl (or_intror eq_refl)))).
Defined.

(** ** What the handlers answer *)

Lemma check_date_fields_ValueError (y m d : Z) (e : exn) :
  datetime.check_date_fields y m d = Raise e -> exists msg, e = ValueError msg.
Proof.
  unfold datetime.check_date_fields.
  repeat match goal with
         | |- context [if ?c then _ else _] => destruct c
         end; intros E; try discriminate; injection E as <-; eexists; reflexivity.
Qed.

Lemma replace_year_ValueError (d : datetime.t) (y : Z) (e : exn) :
  datetime.replace_year d y = Raise e -> exists msg, e = ValueError msg.
Proof.
  unfold datetime.replace_year.
  destruct (datetime.check_date_fields y (datetime.month d) (datetime.day d)) eqn:C;
    simpl; [discriminate |].
  intros E. injection E as <-. now apply check_date_fields_ValueError in C.
Qed.

Lemma adjust_loop_ValueError (n : nat) (d : datetime.t) (e : exn) :
  AddressBook.adjust_loop n d = Raise e -> exists msg, e = ValueError msg.
Proof.
  revert d. induction n as [| n IH]; intros d; simpl; [discriminate |].
  destruct (4 <? datetime.weekday d); [| discriminate].
  unfold datetime.replace_day.
  destruct (datetime.check_date_fields (datetime.year d) (datetime.month d)
              (datetime.day d + 1)) eqn:C; simpl.
  - apply IH.
  - intros E. injection E as <-. now apply check_date_fields_ValueError in C.
Qed.

Lemma upcoming_of_ValueError (today : datetime.t) (r : Record.t) (e : exn) :
  AddressBook.upcoming_of today r = Raise e -> exists msg, e = ValueError msg.
Proof.
  unfold AddressBook.upcoming_of. destruct (Record.birthday r) as [b |]; [| discriminate].
  destruct (datetime.replace_year (Birthday.value b) (datetime.year today)) as [ty |] eqn:R1;
    cbv beta iota zeta delta [res_bind];
    [| intros E; injection E as <-; now apply replace_year_ValueError in R1].
  destruct (datetime.lt ty today).
  - destruct (datetime.replace_year (Birthday.value b) (datetime.year today + 1))
      as [ny |] eqn:R2;
      [| intros E; injection E as <-; now apply replace_year_ValueError in R2].
    destruct ((0 <=? datetime.sub_days ny today) && (datetime.sub_days ny today <=? 7));
      [| discriminate].
    destruct (AddressBook.adjust_weekend ny) eqn:A; [discriminate |].
    intros E. injection E as <-. now apply adjust_loop_ValueError in A.
  - destruct ((0 <=? datetime.sub_days ty today) && (datetime.sub_days ty today <=? 7));
      [| discriminate].
    destruct (AddressBook.adjust_weekend ty) eqn:A; [discriminate |].
    intros E. injection E as <-. now apply adjust_loop_ValueError in A.
Qed.

Lemma upcoming_loop_ValueError (today : datetime.t) (records : list Record.t) :
  forall acc e,
    AddressBook.upcoming_loop today records acc = Raise e -> exists msg, e = ValueError msg.
Proof.
  induction records as [| r records IH]; intros acc e; simpl; [discriminate |].
  destruct (AddressBook.upcoming_of today r) as [x |] eqn:U; simpl.
  - apply IH.
  - intros E. injection E as <-. now apply upcoming_of_ValueError in U.
Qed.

Lemma Phone_init_ValueError (p : string) (e : exn) :
  Phone.init p = Raise e -> exists msg, e = ValueError msg.
Proof.
  unfold Phone.init. destruct (_ || _); intros E; [| discriminate].
  injection E as <-. eexists. reflexivity.
Qed.

Lemma only_ValueError_bind {A B : Type} (r : res A) (k : A -> res B) :
  only_ValueError r -> (forall a, only_ValueError (k a)) ->
  only_ValueError (res_bind r k).
Proof.
  intros Hr Hk e. destruct r as [a | e']; simpl.
  - apply Hk.
  - intros E. injection E as <-. now apply Hr.
Qed.

Lemma only_ValueError_Ok {A : Type} (a : A) : only_ValueError (Ok a).
Proof. intros e E. discriminate. Qed.

Lemma Name_init_only (n : string) : only_ValueError (Name.init n).
Proof.
  intros e. unfold Name.init. destruct (negb (Str.isalpha n)); [| discriminate].
  intros E. injection E as <-. eexists. reflexivity.
Qed.

Lemma Phone_init_only (p : string) : only_ValueError (Phone.init p).
Proof. intros e. apply Phone_init_ValueError. Qed.

Lemma Birthday_init_only (s : string) : only_ValueError (Birthday.init s).
Proof. intros e E. apply Birthday_init_raises in E. subst. eexists. reflexivity. Qed.

(** A handler whose validation raises nothing but [ValueError] answers with
    a string if its continuation does. *)
Lemma validated_answers {A : Type} (r : res A) (k : A -> body) (book : AddressBook.t) :
  only_ValueError r ->
  (forall a, exists s, fst (input_error (k a) book) = PyStr s) ->
  exists s, fst (input_error (validated r k) book) = PyStr s.
Proof.
  intros Hr Hk. unfold input_error, validated in *. destruct r as [a | e].
  - apply Hk.
  - destruct (Hr e eq_refl) as [msg ->]. simpl. eexists. reflexivity.
Qed.

(** X30. Every handler but [add_birthday] answers with a string, for every
    argument list and every book: no failure inside reaches the caller and
    none is turned into [None]; the query behind [birthdays] raises nothing
    but [ValueError], whose text is then the answer. [add_birthday] answers
    with a string when it is given two arguments, and with [None] exactly
    when it is not. *)
Theorem handlers_answer_strings (args : list string) (today : datetime.t)
  (book : AddressBook.t) :
  (exists s, fst (add_contact args book) = PyStr s)
  /\ (exists s, fst (delete_contact args book) = PyStr s)
  /\ (exists s, fst (remove_contact_phone args book) = PyStr s)
  /\ (exists s, fst (change_contact args book) = PyStr s)
  /\ (exists s, fst (get_contact args book) = PyStr s)
  /\ (exists s, fst (get_all_contacts book) = PyStr s)
  /\ (exists s, fst (show_birthday args book) = PyStr s)
  /\ (exists s, fst (birthdays today book) = PyStr s)
  /\ (List.length args = 2%nat -> exists s, fst (add_birthday args book) = PyStr s)
  /\ (List.length args <> 2%nat -> fst (add_birthday args book) = PyNone).
Proof.
  repeat split.
  - unfold add_contact, add_contact_body.
    destruct args as [| name [| phone [| c args]]]; try (eexists; reflexivity).
    apply validated_answers.
    + apply only_ValueError_bind; [unfold Record.init |].
      * apply only_ValueError_bind; [apply Name_init_only | intros; apply only_ValueError_Ok].
      * intros r. unfold Record.add_phone.
        apply only_ValueError_bind; [apply Phone_init_only | intros; apply only_ValueError_Ok].
    + intros record. unfold input_error.
      destruct (AddressBook.find book name) as [existing |];
        [| eexists; reflexivity].
      destruct (str_in phone (Record.phone_values existing));
        [eexists; reflexivity |].
      unfold Record.add_phone.
      destruct (Phone.init phone) as [ph | e] eqn:P; [eexists; reflexivity |].
      apply Phone_init_ValueError in P as [msg ->]. eexists; reflexivity.
  - unfold delete_contact, delete_contact_body.
    destruct args as [| a [| b args]]; try (eexists; reflexivity).
    apply validated_answers; [apply Name_init_only |].
    intros nm. unfold input_error, AddressBook.delete, dict.pop.
    destruct (dict.get (AddressBook.data book) (Name.value nm)); eexists; reflexivity.
  - unfold remove_contact_phone, remove_contact_phone_body.
    destruct args as [| a [| b [| c args]]]; try (eexists; reflexivity).
    apply validated_answers.
    + apply only_ValueError_bind; [apply Name_init_only | intros].
      apply only_ValueError_bind; [apply Phone_init_only | intros; apply only_ValueError_Ok].
    + intros [nm ph]. unfold input_error. repeat handler_case; eexists; reflexivity.
  - unfold change_contact, change_contact_body.
    destruct args as [| a [| b [| c [| d args]]]]; try (eexists; reflexivity).
    apply validated_answers.
    + apply only_ValueError_bind; [apply Name_init_only | intros].
      apply only_ValueError_bind; [apply Phone_init_only | intros].
      apply only_ValueError_bind; [apply Phone_init_only | intros; apply only_ValueError_Ok].
    + intros [[nm o] p]. unfold input_error. repeat handler_case; eexists; reflexivity.
  - unfold get_contact, get_contact_body.
    destruct args as [| a [| b args]]; try (eexists; reflexivity).
    apply validated_answers; [apply Name_init_only |].
    intros nm. unfold input_error. repeat handler_case; eexists; reflexivity.
  - unfold get_all_contacts, input_error, get_all_contacts_body.
    destruct (AddressBook.data book); eexists; reflexivity.
  - unfold show_birthday, show_birthday_body.
    destruct args as [| a [| b args]]; try (eexists; reflexivity).
    apply validated_answers; [apply Name_init_only |].
    intros nm. unfold input_error. repeat handler_case; eexists; reflexivity.
  - unfold birthdays, input_error, birthdays_body, AddressBook.get_upcoming_birthdays.
    destruct (AddressBook.upcoming_loop today (dict.values (AddressBook.data book)) [])
      as [[| x l] | e] eqn:U; try (eexists; reflexivity).
    apply upcoming_loop_ValueError in U as [msg ->]. eexists; reflexivity.
  - intros L. destruct args as [| name [| birthday [| c args]]]; try discriminate.
    unfold add_birthday, add_birthday_body. apply validated_answers.
    + apply only_ValueError_bind; [apply Name_init_only | intros].
      apply only_ValueError_bind; [apply Birthday_init_only | intros; apply only_ValueError_Ok].
    + intros [nm bd]. unfold input_error.
      destruct (AddressBook.find book (Name.value nm)); [| eexists; reflexivity].
      unfold Record.add_birthday.
      destruct (Birthday.init (datetime.strftime (Birthday.value bd))) as [b |] eqn:B;
        [eexists; reflexivity |].
      rewrite (Birthday_init_raises _ _ B). eexists; reflexivity.
  - intros L. destruct args as [| a [| b [| c args]]]; simpl in L; try lia; reflexivity.
Qed.

Lemma handlers_answer_strings_witness :
  (exists s, fst (add_birthday ["john"; "01.01.2000"] AddressBook.empty) = PyStr s)
  /\ fst (add_birthday ["john"] AddressBook.empty) = PyNone.
Proof.
  split.
  - apply (handlers_answer_strings ["john"; "01.01.2000"] (datetime.mk 2024 6 12 0 0 0 0)
             AddressBook.empty). reflexivity.
  - apply (handlers_answer_strings ["john"] (datetime.mk 2024 6 12 0 0 0 0)
             AddressBook.empty). simpl. lia.
Defined.
